(** * Session broker of the chat server: model and verification

    The development follows the backend files of the repository: the
    mongoose models with their helper objects ([WorkerHelpers],
    [MessageHelpers], [ChatRoomHelpers]), the express / socket.io server
    with its HTTP admission route, its administration routes and its
    socket event handlers, and the upload helpers of the storage
    configuration.

    Conventions of the embedding.
    - A mongoose collection is the list of its documents in natural
      (insertion) order; [find] without a sort returns them in that order.
    - [unique: true], [required: true] and [enum] of a schema are enforced
      on save: a save that violates one of them throws, which is [None].
    - A JS [Map] that the code iterates ([activeCustomers]) is an
      insertion-ordered association list; a [Map] that is only read and
      written by key ([workerSockets]) and the socket table of socket.io
      are [gmap]s.
    - A string payload field that is absent ([undefined]) is the empty
      string: both are falsy and both fail [required].
    - [Date.now()] and [new Date()] are clock readings (milliseconds)
      carried by the event that is being handled.  A request that is
      resumed after an [await] reads the clock anew: an admission carries
      the reading of its arrival and one reading for each resumption.  A
      socket event carries one reading, which is the time that its
      handler writes.
    - A worker id that a client sends is a string that the store may or
      may not be able to cast to an object id ([ObjectIds]); a call of
      [findById] or [findByIdAndUpdate] with a string it cannot cast
      throws.  The ids of stored documents, and what the server copies
      from them, are object ids and are not cast.
    - The store is reachable: the only other operations that throw are
      the saves that the schema refuses.
    - Every [await] on a store operation is a suspension point.  The
      admission route is given step by step (one step per store
      operation), so that two admissions can be interleaved; its
      run-to-completion composition and the socket handlers are then
      functions from a state and an event to a state and the emitted
      events (a socket handler is taken as running without another
      handler in between). *)

From Stdlib Require Import ZArith Lia Ascii.
From stdpp Require Import base decidable option list sorting gmap strings pretty.

Local Open Scope Z_scope.

(** ** JavaScript values the handlers branch on *)

(** [!s] is true of the empty string only. *)
Definition truthy (s : string) : bool := bool_decide (s ≠ EmptyString).

(** A number is falsy when it is zero. *)
Definition truthyZ (n : Z) : bool := bool_decide (n ≠ 0).

(** [a || b] on strings. *)
Definition or_else (a b : string) : string := if truthy a then a else b.

(** An optional trailing argument of a JS call: left out, or given (where
    [None] is [null]). *)
Inductive Arg (A : Type) : Type :=
| undefined : Arg A
| given : option A → Arg A.
Arguments undefined {A}.
Arguments given {A} _.

(** A parameter default [x = null] replaces [undefined], and only it. *)
Definition default_null {A} (a : Arg A) : Arg A :=
  match a with
  | undefined => given None
  | given v => given v
  end.

(** ** Mongoose documents *)

Module Worker.
Inductive Status := offline | available | busy.

#[global] Instance Status_eq_dec : EqDecision Status.
Proof. solve_decision. Defined.

Record t := mk {
  _id : string;
  username : string;
  status : Status;
  currentCustomer : option string;
  createdAt : Z;
  lastActive : Z
}.
End Worker.

(** The [fileData] of a stored message: the six paths that the message
    schema declares. *)
Record FileData := mkFileData {
  filename : string;
  originalname : string;
  mimetype : string;
  size : Z;
  url : string;
  duration : Z
}.

(** The [fileData] of a [send-message] payload, as the client sent it: the
    properties that the schema declares, and the other properties of the
    object (name and value, as text), such as [public_id], [secure_url]
    and [format] of an upload.  The server passes the object on as it
    is; the schema keeps the declared paths only. *)
Record Attachment := mkAttachment {
  declared : FileData;
  others : list (string * string)
}.

Module Message.
Inductive Status := sent | delivered | read.

#[global] Instance Status_eq_dec : EqDecision Status.
Proof. solve_decision. Defined.

(** [messageId] is stored as the decimal string of the number the server
    assigned; the cast is injective, so the number itself is kept. *)
Record t := mk {
  messageId : Z;
  roomId : string;
  message : string;
  sender : string;
  senderId : string;
  messageType : string;
  fileData : option FileData;
  status : Status;
  timestamp : Z
}.

End Message.

Module ChatRoom.
Inductive Status := active | ended | abandoned.

#[global] Instance Status_eq_dec : EqDecision Status.
Proof. solve_decision. Defined.

Record t := mk {
  roomId : string;
  customerId : string;
  workerId : string;
  workerName : string;
  status : Status;
  createdAt : Z;
  endedAt : option Z;
  messageCount : Z
}.
End ChatRoom.

Module CustomerSession.
Inductive Status := connected | disconnected | ended.

Record t := mk {
  customerId : string;
  roomId : string;
  workerId : string;
  workerName : string;
  status : Status;
  joinedAt : Z;
  lastActivity : Z
}.
End CustomerSession.

(** ** Collections *)

Section Collection.
Context {A : Type}.

(** [Model.findOne(q)]: the first document that matches. *)
Fixpoint findOne (q : A → bool) (c : list A) : option A :=
  match c with
  | [] => None
  | d :: c' => if q d then Some d else findOne q c'
  end.

(** [Model.findOneAndUpdate(q, u)]: the first document that matches is
    updated, the others are left alone; no match is no change. *)
Fixpoint findOneAndUpdate (q : A → bool) (u : A → A) (c : list A) : list A :=
  match c with
  | [] => []
  | d :: c' => if q d then u d :: c' else d :: findOneAndUpdate q u c'
  end.

(** [Model.updateMany(q, u)]: every document that matches is updated. *)
Definition updateMany (q : A → bool) (u : A → A) (c : list A) : list A :=
  (λ d, if q d then u d else d) <$> c.

(** [doc.save()] of a new document whose unique key is [key d]: refused
    when a document with that key is stored already. *)
Definition insertUnique {K} `{EqDecision K} (key : A → K) (d : A) (c : list A)
  : option (list A) :=
  if bool_decide (key d ∈ (key <$> c)) then None else Some (c ++ [d]).
End Collection.

(** The durable record store. *)
Record Store := mkStore {
  workers : list Worker.t;
  messages : list Message.t;
  chatRooms : list ChatRoom.t;
  customerSessions : list CustomerSession.t
}.

Definition with_workers (ws : list Worker.t) (db : Store) : Store :=
  mkStore ws (messages db) (chatRooms db) (customerSessions db).
Definition with_messages (ms : list Message.t) (db : Store) : Store :=
  mkStore (workers db) ms (chatRooms db) (customerSessions db).
Definition with_chatRooms (rs : list ChatRoom.t) (db : Store) : Store :=
  mkStore (workers db) (messages db) rs (customerSessions db).
Definition with_customerSessions (cs : list CustomerSession.t) (db : Store) : Store :=
  mkStore (workers db) (messages db) (chatRooms db) cs.

(** ** Object ids *)

(** [Worker.findById(id)] and [Worker.findByIdAndUpdate(id, ...)] cast
    [id] to an object id first and throw a cast error for a string that is
    not one.  Which strings the store can cast is the driver's matter and
    is left open: the handlers are given for every such test, and what is
    proved of them holds whatever the test is. *)
Class ObjectIds := { castable : string → bool }.

(** ** The helper objects of the models file *)

Module WorkerHelpers.
(** [Worker.find({ status: 'available' }).limit(10)] *)
Definition findAvailable (db : Store) : list Worker.t :=
  take 10 (filter (λ w, Worker.status w = Worker.available) (workers db)).

(** [updateStatus(workerId, status, currentCustomer = null)].  The default
    turns a missing third argument into [null] before the test against
    [undefined] is made, so the test always succeeds. *)
Definition updateData (status : Worker.Status) (currentCustomer : Arg string)
    (now : Z) (w : Worker.t) : Worker.t :=
  let currentCustomer := default_null currentCustomer in
  let w := Worker.mk (Worker._id w) (Worker.username w) status
             (Worker.currentCustomer w) (Worker.createdAt w) now in
  match currentCustomer with
  | undefined => w
  | given v =>
      Worker.mk (Worker._id w) (Worker.username w) (Worker.status w) v
        (Worker.createdAt w) (Worker.lastActive w)
  end.

Definition updateStatus (workerId : string) (status : Worker.Status)
    (currentCustomer : Arg string) (now : Z) (db : Store) : Store :=
  with_workers
    (findOneAndUpdate (λ w, bool_decide (Worker._id w = workerId))
       (updateData status currentCustomer now) (workers db)) db.
End WorkerHelpers.

(** [Worker.findById(id)] *)
Definition findById (workerId : string) (db : Store) : option Worker.t :=
  findOne (λ w, bool_decide (Worker._id w = workerId)) (workers db).

(** What the server puts into a message before it is saved and broadcast. *)
Record MessageData := mkMessageData {
  md_id : Z;
  md_roomId : string;
  md_message : string;
  md_sender : string;
  md_senderId : string;
  md_messageType : string;
  md_fileData : option Attachment;
  md_status : Message.Status;
  md_timestamp : Z
}.

Module MessageHelpers.
Definition senders : list string := ["customer"; "worker"; "system"]%string.
Definition messageTypes : list string := ["text"; "image"; "file"; "voice"]%string.

(** The schema's validators: [required] strings and [enum]s. *)
Definition valid (m : Message.t) : bool :=
  truthy (Message.roomId m) && truthy (Message.message m)
  && bool_decide (Message.sender m ∈ senders)
  && truthy (Message.senderId m)
  && bool_decide (Message.messageType m ∈ messageTypes).

Definition document (messageData : MessageData) : Message.t :=
  Message.mk (md_id messageData) (md_roomId messageData)
    (md_message messageData) (md_sender messageData)
    (md_senderId messageData)
    (or_else (md_messageType messageData) "text")
    (declared <$> md_fileData messageData) (md_status messageData)
    (md_timestamp messageData).

(** [saveMessage(messageData)]: validation, then the unique index on
    [messageId]. *)
Definition saveMessage (messageData : MessageData) (db : Store) : option Store :=
  let m := document messageData in
  if valid m then
    ms ← insertUnique Message.messageId m (messages db);
    Some (with_messages ms db)
  else None.

Definition setStatus (s : Message.Status) (m : Message.t) : Message.t :=
  Message.mk (Message.messageId m) (Message.roomId m) (Message.message m)
    (Message.sender m) (Message.senderId m) (Message.messageType m)
    (Message.fileData m) s (Message.timestamp m).

(** [Message.findOneAndUpdate({ messageId }, { status })] *)
Definition updateStatus (messageId : Z) (status : Message.Status) (db : Store)
  : Store :=
  with_messages
    (findOneAndUpdate (λ m, bool_decide (Message.messageId m = messageId))
       (setStatus status) (messages db)) db.
End MessageHelpers.

Module ChatRoomHelpers.
(** [create(roomId, customerId, worker)]: status, creation time, end time
    and message count take their schema defaults; [roomId] is unique. *)
Definition create (roomId customerId : string) (worker : Worker.t) (now : Z)
    (db : Store) : option Store :=
  rs ← insertUnique ChatRoom.roomId
         (ChatRoom.mk roomId customerId (Worker._id worker)
            (Worker.username worker) ChatRoom.active now None 0)
         (chatRooms db);
  Some (with_chatRooms rs db).

Definition close (now : Z) (r : ChatRoom.t) : ChatRoom.t :=
  ChatRoom.mk (ChatRoom.roomId r) (ChatRoom.customerId r) (ChatRoom.workerId r)
    (ChatRoom.workerName r) ChatRoom.ended (ChatRoom.createdAt r) (Some now)
    (ChatRoom.messageCount r).

(** [end(roomId)]: [{ status: 'ended', endedAt: new Date() }] on the room
    with that id, whatever its status was.  ([end] is a keyword here.) *)
Definition end_ (roomId : string) (now : Z) (db : Store) : Store :=
  with_chatRooms
    (findOneAndUpdate (λ r, bool_decide (ChatRoom.roomId r = roomId))
       (close now) (chatRooms db)) db.
End ChatRoomHelpers.

(** ** In-memory state of the server process *)

(** The value kept in [activeCustomers] for an admitted customer. *)
Module Customer.
Record t := mk {
  id : string;
  roomId : string;
  workerId : string;
  workerName : string;
  joinedAt : Z
}.
End Customer.

(** A connected socket: the properties the handlers attach to it and the
    rooms it has joined. *)
Module Socket.
Record t := mk {
  workerId : option string;
  customerId : option string;
  roomId : option string;
  rooms : gset string
}.

(** A new socket is in the room named by its own id. *)
Definition fresh (sid : string) : t := mk None None None {[ sid ]}.

Definition join (room : string) (s : t) : t :=
  mk (workerId s) (customerId s) (roomId s) ({[ room ]} ∪ rooms s).
Definition set_workerId (w : string) (s : t) : t :=
  mk (Some w) (customerId s) (roomId s) (rooms s).
Definition set_customer (c r : string) (s : t) : t :=
  mk (workerId s) (Some c) (Some r) (rooms s).

(** Truthiness of a property that may never have been set. *)
Definition prop (p : option string) : option string :=
  match p with
  | Some s => if truthy s then Some s else None
  | None => None
  end.
End Socket.

(** A JS [Map] with string keys, in insertion order. *)
Section JsMap.
Context {V : Type}.

Definition jsmap_get (k : string) (m : list (string * V)) : option V :=
  snd <$> findOne (λ kv, bool_decide (kv.1 = k)) m.

(** [set] keeps the position of a key that is present already. *)
Fixpoint jsmap_set (k : string) (v : V) (m : list (string * V)) : list (string * V) :=
  match m with
  | [] => [(k, v)]
  | kv :: m' => if bool_decide (kv.1 = k) then (k, v) :: m' else kv :: jsmap_set k v m'
  end.

Definition jsmap_delete (k : string) (m : list (string * V)) : list (string * V) :=
  filter (λ kv, kv.1 ≠ k) m.

Definition jsmap_values (m : list (string * V)) : list V := snd <$> m.
End JsMap.

Record State := mkState {
  db : Store;
  workerSockets : gmap string string;
  activeCustomers : list (string * Customer.t);
  sockets : gmap string Socket.t;
  (** callbacks of [setTimeout] not run yet, oldest first: room and id of
      the message to announce as delivered *)
  timers : list (string * Z)
}.

Definition with_db (d : Store) (st : State) : State :=
  mkState d (workerSockets st) (activeCustomers st) (sockets st) (timers st).
Definition with_workerSockets (m : gmap string string) (st : State) : State :=
  mkState (db st) m (activeCustomers st) (sockets st) (timers st).
Definition with_activeCustomers (m : list (string * Customer.t)) (st : State) : State :=
  mkState (db st) (workerSockets st) m (sockets st) (timers st).
Definition with_sockets (m : gmap string Socket.t) (st : State) : State :=
  mkState (db st) (workerSockets st) (activeCustomers st) m (timers st).
Definition with_timers (t : list (string * Z)) (st : State) : State :=
  mkState (db st) (workerSockets st) (activeCustomers st) (sockets st) t.

(** The process after start-up, over the provisioned workers. *)
Definition boot (ws : list Worker.t) : State :=
  mkState (mkStore ws [] [] []) ∅ [] ∅ [].

(** ** What the server sends *)

Inductive JoinResponse :=
| connected (customerId roomId workerId workerName : string)
| busy (customerId message : string)
| server_error.

(** The [busy] answer of the route, with its fixed text. *)
Definition busy_for (customerId : string) : JoinResponse :=
  busy customerId
    "All our agents are currently busy. Please leave your contact info for a callback.".

Inductive Target :=
| to_room (room : string)                (* io.to(room).emit *)
| to_room_except (room sid : string)     (* socket.to(room).emit *)
| to_socket (sid : string).              (* socket.emit *)

Inductive Payload :=
| worker_status (status : Worker.Status) (currentCustomer : option string)
    (queueLength : nat)
| customer_connected (customerId roomId : string)
| new_message (messageData : MessageData)
| message_status_update (messageId : Z) (status : Message.Status)
| message_error
| user_typing (sender : string) (typing : bool)
| chat_ended
| customer_disconnected (customerId : string).

Inductive Output :=
| emit (t : Target) (p : Payload)
| respond (r : JoinResponse).

(** Whether the connected socket [sid] is sent what goes to [t]. *)
Definition receives (st : State) (sid : string) (t : Target) : bool :=
  match sockets st !! sid with
  | None => false
  | Some sk =>
      match t with
      | to_room r => bool_decide (r ∈ Socket.rooms sk)
      | to_room_except r s => bool_decide (r ∈ Socket.rooms sk) && bool_decide (sid ≠ s)
      | to_socket s => bool_decide (sid = s)
      end
  end.

(** ** Admission: [POST /api/customer/join] *)

Definition findAvailableWorker (d : Store) : option Worker.t :=
  head (WorkerHelpers.findAvailable d).

Definition findWorkerSocket (workerId : string) (st : State) : option string :=
  workerSockets st !! workerId.

(** ['customer_' + Date.now() + '_' + <random suffix>] *)
Definition new_customerId (now : Z) (random : string) : string :=
  "customer_" +:+ pretty now +:+ "_" +:+ random.

Definition room_of (customerId : string) (worker : Worker.t) : string :=
  "room_" +:+ customerId +:+ "_" +:+ Worker._id worker.

(** [new CustomerSession({...}).save()]; [customerId] is unique. *)
Definition saveCustomerSession (customerId roomId : string) (worker : Worker.t)
    (now : Z) (d : Store) : option Store :=
  cs ← insertUnique CustomerSession.customerId
         (CustomerSession.mk customerId roomId (Worker._id worker)
            (Worker.username worker) CustomerSession.connected now now)
         (customerSessions d);
  Some (with_customerSessions cs d).

(** Where a request of the admission route stands: the store operation it
    is waiting for, with the locals that are live across it.  The document
    or update that the operation writes was built before the [await], so
    the clock reading in it is carried along: [lastActive] of the update,
    [createdAt] of the room, [joinedAt] and [lastActivity] of the customer
    session. *)
Inductive Join :=
| await_find (customerId : string)
| await_updateStatus (customerId : string) (worker : Worker.t) (lastActive : Z)
| await_create (customerId : string) (worker : Worker.t) (createdAt : Z)
| await_save (customerId : string) (worker : Worker.t) (joinedAt : Z)
| replied (r : JoinResponse).

(** One step: the awaited store operation is performed and the request,
    resumed at the clock reading [now], runs on to its next [await] or to
    its response. *)
Definition join_step (now : Z) (st : State) (j : Join) : State * Join :=
  match j with
  | await_find customerId =>
      match findAvailableWorker (db st) with
      | Some availableWorker => (st, await_updateStatus customerId availableWorker now)
      | None => (st, replied (busy_for customerId))
      end
  | await_updateStatus customerId worker lastActive =>
      (with_db (WorkerHelpers.updateStatus (Worker._id worker) Worker.busy
                  (given (Some customerId)) lastActive (db st)) st,
       await_create customerId worker now)
  | await_create customerId worker createdAt =>
      match ChatRoomHelpers.create (room_of customerId worker) customerId worker
              createdAt (db st) with
      | Some d => (with_db d st, await_save customerId worker now)
      | None => (st, replied server_error)
      end
  | await_save customerId worker joinedAt =>
      let roomId := room_of customerId worker in
      match saveCustomerSession customerId roomId worker joinedAt (db st) with
      | Some d =>
          let st := with_db d st in
          (with_activeCustomers
             (jsmap_set customerId
                (Customer.mk customerId roomId (Worker._id worker)
                   (Worker.username worker) now)
                (activeCustomers st)) st,
           replied (connected customerId roomId (Worker._id worker)
                      (Worker.username worker)))
      | None => (st, replied server_error)
      end
  | replied r => (st, j)
  end.

(** The steps of a request that is resumed at the given clock readings
    with no other handler in between. *)
Fixpoint join_steps (resumed : list Z) (st : State) (j : Join) : State * Join :=
  match resumed with
  | [] => (st, j)
  | now :: resumed' => let '(st', j') := join_step now st j in join_steps resumed' st' j'
  end.

(** The clock readings at which a request of the route is resumed after
    each of its four awaited store operations. *)
Record Resumed := mkResumed {
  after_find : Z;
  after_updateStatus : Z;
  after_create : Z;
  after_save : Z
}.

(** The route run without another handler in between: [now] is the clock
    reading when the request arrives, which goes into the customer id. *)
Definition admitCustomer (now : Z) (random : string) (resumed : Resumed) (st : State)
  : State * JoinResponse :=
  match join_steps [after_find resumed; after_updateStatus resumed;
                    after_create resumed; after_save resumed]
          st (await_find (new_customerId now random)) with
  | (st', replied r) => (st', r)
  | (st', _) => (st', server_error)
  end.

(** Two admissions under a schedule: each entry lets the first ([true])
    or the second ([false]) request take its next step, at the given
    clock reading. *)
Fixpoint interleave (sched : list (bool * Z)) (st : State) (a b : Join)
  : State * Join * Join :=
  match sched with
  | [] => (st, a, b)
  | (true, now) :: sched' =>
      let '(st', a') := join_step now st a in interleave sched' st' a' b
  | (false, now) :: sched' =>
      let '(st', b') := join_step now st b in interleave sched' st' a b'
  end.

(** ** Socket event handlers *)

(** The payload of [send-message]. *)
Record SendData := mkSendData {
  sd_roomId : string;
  sd_message : string;
  sd_sender : string;
  sd_senderId : string;
  sd_messageType : string;
  sd_fileData : option Attachment
}.

(** The object the handler builds: its id is the clock reading. *)
Definition messageData_of (data : SendData) (now : Z) : MessageData :=
  mkMessageData now (sd_roomId data) (sd_message data) (sd_sender data)
    (sd_senderId data) (or_else (sd_messageType data) "text") (sd_fileData data)
    Message.sent now.

Definition worker_room (workerId : string) : string := "worker_" +:+ workerId.

(** ['worker-join'].  The update is written without the cast: it changes
    the worker that has this id, and no document is stored under an id
    that the store cannot cast.  For such an id the call throws and the
    status is not sent. *)
Definition on_worker_join `{ObjectIds} (sid workerId : string) (now : Z)
    (sk : Socket.t) (st : State) : State * list Output :=
  let sk := Socket.set_workerId workerId (Socket.join (worker_room workerId) sk) in
  let st := with_sockets (<[sid := sk]> (sockets st)) st in
  let st := with_workerSockets (<[workerId := sid]> (workerSockets st)) st in
  let st := with_db (WorkerHelpers.updateStatus workerId Worker.available
                       undefined now (db st)) st in
  let worker := findById workerId (db st) in
  (st, if castable workerId then
         [emit (to_room (worker_room workerId))
            (worker_status
               (from_option Worker.status Worker.offline worker)
               (worker ≫= Worker.currentCustomer)
               (length (activeCustomers st)))]
       else []).

(** ['customer-join'] *)
Definition on_customer_join (sid customerId roomId : string) (sk : Socket.t)
    (st : State) : State * list Output :=
  let sk := Socket.set_customer customerId roomId (Socket.join roomId sk) in
  let st := with_sockets (<[sid := sk]> (sockets st)) st in
  match jsmap_get customerId (activeCustomers st) with
  | Some customer =>
      let st :=
        match Socket.prop (findWorkerSocket (Customer.workerId customer) st) with
        | Some workerSocketId =>
            match sockets st !! workerSocketId with
            | Some workerSocket =>
                with_sockets
                  (<[workerSocketId := Socket.join roomId workerSocket]> (sockets st)) st
            | None => st
            end
        | None => st
        end in
      (st, [emit (to_room (worker_room (Customer.workerId customer)))
              (customer_connected customerId roomId)])
  | None => (st, [])
  end.

(** ['send-message']: save, then broadcast, then arm the timer; a failed
    save goes to the [catch]. *)
Definition on_send_message (sid : string) (data : SendData) (now : Z)
    (st : State) : State * list Output :=
  let messageData := messageData_of data now in
  match MessageHelpers.saveMessage messageData (db st) with
  | Some d =>
      let st := with_db d st in
      (with_timers (timers st ++ [(sd_roomId data, md_id messageData)]) st,
       [emit (to_room (sd_roomId data)) (new_message messageData)])
  | None => (st, [emit (to_socket sid) message_error])
  end.

(** The callback of the 100 ms timer of [send-message]: only a broadcast,
    the stored message is not touched. *)
Definition on_timeout (st : State) : State * list Output :=
  match timers st with
  | [] => (st, [])
  | (roomId, messageId) :: rest =>
      (with_timers rest st,
       [emit (to_room roomId) (message_status_update messageId Message.delivered)])
  end.

(** ['typing-start'] and ['typing-stop'] *)
Definition on_typing (sid roomId sender : string) (typing : bool) (st : State)
  : State * list Output :=
  if negb (truthy roomId) || negb (truthy sender) then (st, [])
  else (st, [emit (to_room_except roomId sid) (user_typing sender typing)]).

(** ['message-read'] *)
Definition on_message_read (roomId : string) (messageId : Z) (st : State)
  : State * list Output :=
  if negb (truthy roomId) || negb (truthyZ messageId) then (st, [])
  else
    (with_db (MessageHelpers.updateStatus messageId Message.read (db st)) st,
     [emit (to_room roomId) (message_status_update messageId Message.read)]).

(** ['messages-read'] *)
Definition on_messages_read (roomId : string) (messageIds : list Z) (st : State)
  : State * list Output :=
  (with_db
     (with_messages
        (updateMany (λ m, bool_decide (Message.messageId m ∈ messageIds))
           (MessageHelpers.setStatus Message.read) (messages (db st)))
        (db st)) st,
   (λ messageId, emit (to_room roomId) (message_status_update messageId Message.read))
     <$> messageIds).

(** ['end-chat'].  The update of the worker is the first call in the
    [try]: for a worker id that the store cannot cast it throws, and the
    [catch] only logs, so the room is not ended, the customer stays in
    [activeCustomers] and nothing is sent. *)
Definition on_end_chat `{ObjectIds} (roomId workerId : string) (now : Z) (st : State)
  : State * list Output :=
  if castable workerId then
    let st := with_db (WorkerHelpers.updateStatus workerId Worker.available
                         (given None) now (db st)) st in
    let st := with_db (ChatRoomHelpers.end_ roomId now (db st)) st in
    let customer :=
      findOne (λ c, bool_decide (Customer.roomId c = roomId))
        (jsmap_values (activeCustomers st)) in
    let st :=
      match customer with
      | Some c => with_activeCustomers (jsmap_delete (Customer.id c) (activeCustomers st)) st
      | None => st
      end in
    (st, [emit (to_room roomId) chat_ended])
  else (st, []).

(** ['disconnect']: the worker branch, then the customer branch, each in
    a [try] of its own; the socket is gone afterwards.  In the worker
    branch the entry of [workerSockets] is deleted after the update: for a
    worker id that the store cannot cast the update throws and the entry
    stays.  In the customer branch the worker id is the one copied from
    the worker's document at the admission. *)
Definition worker_left `{ObjectIds} (sk : Socket.t) (now : Z) (st : State) : State :=
  match Socket.prop (Socket.workerId sk) with
  | Some workerId =>
      if castable workerId then
        let st := with_db (WorkerHelpers.updateStatus workerId Worker.offline
                             (given None) now (db st)) st in
        with_workerSockets (delete workerId (workerSockets st)) st
      else st
  | None => st
  end.

Definition customer_left (sk : Socket.t) (now : Z) (st : State)
  : State * list Output :=
  match Socket.prop (Socket.customerId sk), Socket.prop (Socket.roomId sk) with
  | Some customerId, Some roomId =>
      match jsmap_get customerId (activeCustomers st) with
      | Some customer =>
          let st := with_db (WorkerHelpers.updateStatus (Customer.workerId customer)
                               Worker.available (given None) now (db st)) st in
          let st := with_db (ChatRoomHelpers.end_ roomId now (db st)) st in
          (with_activeCustomers (jsmap_delete customerId (activeCustomers st)) st,
           [emit (to_room (worker_room (Customer.workerId customer)))
              (customer_disconnected customerId)])
      | None => (st, [])
      end
  | _, _ => (st, [])
  end.

Definition on_disconnect `{ObjectIds} (sid : string) (now : Z) (sk : Socket.t)
    (st : State) : State * list Output :=
  let st := with_sockets (delete sid (sockets st)) st in
  customer_left sk now (worker_left sk now st).

(** ** The server as a transition function *)

Inductive Event :=
| PostCustomerJoin (now : Z) (random : string) (resumed : Resumed)
| Connection (sid : string)
| WorkerJoin (sid workerId : string) (now : Z)
| CustomerJoin (sid customerId roomId : string)
| SendMessage (sid : string) (data : SendData) (now : Z)
| Timeout
| TypingStart (sid roomId sender : string)
| TypingStop (sid roomId sender : string)
| MessageRead (sid roomId : string) (messageId : Z)
| MessagesRead (sid roomId : string) (messageIds : list Z)
| EndChat (sid roomId workerId : string) (now : Z)
| Disconnect (sid : string) (now : Z).

(** A socket event is handled only for a socket that is connected. *)
Definition on_socket (sid : string) (st : State)
    (h : Socket.t → State → State * list Output) : State * list Output :=
  match sockets st !! sid with
  | Some sk => h sk st
  | None => (st, [])
  end.

Definition handle `{ObjectIds} (st : State) (ev : Event) : State * list Output :=
  match ev with
  | PostCustomerJoin now random resumed =>
      let '(st', r) := admitCustomer now random resumed st in (st', [respond r])
  | Connection sid =>
      (with_sockets (<[sid := Socket.fresh sid]> (sockets st)) st, [])
  | WorkerJoin sid workerId now => on_socket sid st (on_worker_join sid workerId now)
  | CustomerJoin sid customerId roomId =>
      on_socket sid st (on_customer_join sid customerId roomId)
  | SendMessage sid data now => on_socket sid st (λ _, on_send_message sid data now)
  | Timeout => on_timeout st
  | TypingStart sid roomId sender => on_socket sid st (λ _, on_typing sid roomId sender true)
  | TypingStop sid roomId sender => on_socket sid st (λ _, on_typing sid roomId sender false)
  | MessageRead sid roomId messageId => on_socket sid st (λ _, on_message_read roomId messageId)
  | MessagesRead sid roomId messageIds =>
      on_socket sid st (λ _, on_messages_read roomId messageIds)
  | EndChat sid roomId workerId now => on_socket sid st (λ _, on_end_chat roomId workerId now)
  | Disconnect sid now => on_socket sid st (on_disconnect sid now)
  end.

(** A run over a sequence of events, with everything that was sent. *)
Fixpoint run `{ObjectIds} (st : State) (evs : list Event) : State * list Output :=
  match evs with
  | [] => (st, [])
  | ev :: evs' =>
      let '(st1, out1) := handle st ev in
      let '(st2, out2) := run st1 evs' in
      (st2, out1 ++ out2)
  end.

(** ** Properties of states *)

(** [w] is, among the available workers of the store, one that has been
    idle longest. *)
Definition idle_longest (d : Store) (w : Worker.t) : Prop :=
  w ∈ workers d ∧ Worker.status w = Worker.available ∧
  ∀ w', w' ∈ workers d → Worker.status w' = Worker.available →
        Worker.lastActive w ≤ Worker.lastActive w'.


Definition message_ids (st : State) : list Z :=
  Message.messageId <$> messages (db st).

(** The clock readings of the [send-message] events of a run, in order. *)
Definition send_times (evs : list Event) : list Z :=
  omap (λ ev, match ev with SendMessage _ _ now => Some now | _ => None end) evs.

(** How the handling of one event can change the message collection. *)
Inductive messages_step (ms : list Message.t) : Event → list Message.t → Prop :=
| ms_same ev : messages_step ms ev ms
| ms_saved sid data now :
    now ∉ (Message.messageId <$> ms) →
    messages_step ms (SendMessage sid data now)
      (ms ++ [MessageHelpers.document (messageData_of data now)])
| ms_read_one sid roomId messageId :
    messages_step ms (MessageRead sid roomId messageId)
      (findOneAndUpdate (λ m, bool_decide (Message.messageId m = messageId))
         (MessageHelpers.setStatus Message.read) ms)
| ms_read_many sid roomId messageIds :
    messages_step ms (MessagesRead sid roomId messageIds)
      (updateMany (λ m, bool_decide (Message.messageId m ∈ messageIds))
         (MessageHelpers.setStatus Message.read) ms).

(** [r] is an active session of the worker. *)
Definition active_for (workerId : string) (r : ChatRoom.t) : Prop :=
  ChatRoom.status r = ChatRoom.active ∧ ChatRoom.workerId r = workerId.

#[global] Instance active_for_dec workerId r : Decision (active_for workerId r).
Proof. unfold active_for. apply _. Defined.

Definition active_sessions (workerId : string) (d : Store) : list ChatRoom.t :=
  filter (active_for workerId) (chatRooms d).



(** The store is consistent: ids are unique, a busy worker has one active
    session and any other worker none, and the worker of an active session
    exists. *)
Definition consistent (d : Store) : Prop :=
  NoDup (Worker._id <$> workers d)
  ∧ NoDup (ChatRoom.roomId <$> chatRooms d)
  ∧ Forall (λ w, length (active_sessions (Worker._id w) d)
                 = if decide (Worker.status w = Worker.busy) then 1%nat else 0%nat)
      (workers d)
  ∧ Forall (λ r, ChatRoom.status r = ChatRoom.active →
                 ChatRoom.workerId r ∈ (Worker._id <$> workers d))
      (chatRooms d).

#[global] Instance consistent_dec d : Decision (consistent d).
Proof. unfold consistent. apply _. Defined.

Definition not_busy (workerId : string) (d : Store) : Prop :=
  Forall (λ w, Worker._id w = workerId → Worker.status w ≠ Worker.busy) (workers d).

(** The room with this id is an active session of the worker. *)
Definition open_room (roomId workerId : string) (d : Store) : Prop :=
  Exists (λ r, ChatRoom.roomId r = roomId ∧ active_for workerId r) (chatRooms d).

(** The events under which consistency is kept: an admission that meets no
    store error, [worker-join] and the loss of the socket of a worker who
    is not busy, [end-chat] for an active room with the worker of that
    room, the loss of the socket of a customer whose entry names the
    worker of the active room the socket had joined, and every other
    event. *)
Definition orderly (st : State) (ev : Event) : Prop :=
  match ev with
  | PostCustomerJoin now random resumed =>
      (admitCustomer now random resumed st).2 ≠ server_error
  | WorkerJoin _ workerId _ => not_busy workerId (db st)
  | EndChat _ roomId workerId _ => open_room roomId workerId (db st)
  | Disconnect sid _ =>
      match sockets st !! sid with
      | Some sk =>
          match Socket.prop (Socket.workerId sk) with
          | Some workerId => not_busy workerId (db st)
          | None => True
          end
          ∧ match Socket.prop (Socket.customerId sk), Socket.prop (Socket.roomId sk) with
            | Some customerId, Some roomId =>
                match jsmap_get customerId (activeCustomers st) with
                | Some customer => open_room roomId (Customer.workerId customer) (db st)
                | None => True
                end
            | _, _ => True
            end
      | None => True
      end
  | _ => True
  end.

#[global] Instance JoinResponse_eq_dec : EqDecision JoinResponse.
Proof. solve_decision. Defined.

#[global] Instance not_busy_dec workerId d : Decision (not_busy workerId d).
Proof. unfold not_busy. apply _. Defined.

#[global] Instance open_room_dec roomId workerId d : Decision (open_room roomId workerId d).
Proof. unfold open_room. apply _. Defined.

#[global] Instance orderly_dec st ev : Decision (orderly st ev).
Proof.
  destruct ev; cbn [orderly]; try apply _.
  destruct (sockets st !! sid) as [sk|]; [|apply _].
  apply and_dec.
  - destruct (Socket.prop (Socket.workerId sk)); apply _.
  - destruct (Socket.prop (Socket.customerId sk)); [|apply _].
    destruct (Socket.prop (Socket.roomId sk)); [|apply _].
    destruct (jsmap_get _ _); apply _.
Defined.

(** A run all of whose events are orderly in the state they meet. *)
Fixpoint orderly_run `{ObjectIds} (st : State) (evs : list Event) : Prop :=
  match evs with
  | [] => True
  | ev :: evs' => orderly st ev ∧ orderly_run (handle st ev).1 evs'
  end.

#[global] Instance orderly_run_dec `{ObjectIds} evs : ∀ st, Decision (orderly_run st evs).
Proof. induction evs as [|ev evs IH]; intros st; cbn [orderly_run]; apply _. Defined.

(** A request of the admission route that has made its reservation: it
    has no selection or reservation step left. *)
Definition reserved (j : Join) : Prop :=
  match j with
  | await_create _ _ _ | await_save _ _ _ | replied _ => True
  | await_find _ | await_updateStatus _ _ _ => False
  end.

(** A request that has not selected yet, or that was told [busy]. *)
Definition waiting_or_busy (customerId : string) (j : Join) : Prop :=
  j = await_find customerId ∨ j = replied (busy_for customerId).

(** ** Scenario data *)

(** In the scenarios the store casts the ids of the four workers and no
    other string. *)
#[global] Instance scenario_ids : ObjectIds | 100 :=
  {| castable := λ s, bool_decide (s ∈ ["w1"; "w2"; "w3"; "w4"]) |}.

(** A request that is resumed one millisecond after the other. *)
Definition soon (now : Z) : Resumed :=
  mkResumed (now + 1) (now + 2) (now + 3) (now + 4).

Definition alice : Worker.t := Worker.mk "w1" "alice" Worker.offline None 0 0.
Definition bob : Worker.t := Worker.mk "w2" "bob" Worker.offline None 0 0.

(** Two workers that are both available; the second has been idle longer. *)
Definition carol : Worker.t := Worker.mk "w3" "carol" Worker.available None 0 200.
Definition dave : Worker.t := Worker.mk "w4" "dave" Worker.available None 0 100.

(** Alice has joined on socket [s1], a customer was admitted to her and has
    joined the room on socket [c1]. *)
Definition chatting : State :=
  (run (boot [alice; bob])
     [Connection "s1"; WorkerJoin "s1" "w1" 5; PostCustomerJoin 10 "abc" (soon 10);
      Connection "c1";
      CustomerJoin "c1" "customer_10_abc" "room_customer_10_abc_w1"]).1.

Definition hi : SendData :=
  mkSendData "room_customer_10_abc_w1" "hi" "customer" "customer_10_abc" "text" None.
Definition hello : SendData :=
  mkSendData "room_customer_10_abc_w1" "hello" "worker" "w1" "text" None.

(** An image message whose text is empty: the schema requires [message]. *)
Definition untitled : SendData :=
  mkSendData "room_customer_10_abc_w1" EmptyString "customer" "customer_10_abc"
    "image" None.

(** The conversation after the customer's first message, sent at clock
    reading 20. *)
Definition greeted : State := (run chatting [SendMessage "c1" hi 20]).1.

(** The same conversation after Alice has ended the chat. *)
Definition closed : State :=
  (run chatting [EndChat "s1" "room_customer_10_abc_w1" "w1" 30]).1.

(** A second socket has joined as the customer of [chatting], naming
    another room, and was lost: the customer's entry in [activeCustomers]
    is gone, the customer's room is still active in the store. *)
Definition impersonated : State :=
  (run chatting [Connection "x1"; CustomerJoin "x1" "customer_10_abc" "elsewhere";
                 Disconnect "x1" 35]).1.

(** The server process was started again over the store of [chatting]
    (the in-memory tables are empty), and the customer has connected and
    joined the room again, as the client does on every connect. *)
Definition restarted : State :=
  (run (mkState (db chatting) ∅ [] ∅ [])
     [Connection "c2"; CustomerJoin "c2" "customer_10_abc" "room_customer_10_abc_w1"]).1.

(** Alice has joined and is the one available worker. *)
Definition one_available : State :=
  (run (boot [alice; bob]) [Connection "s1"; WorkerJoin "s1" "w1" 5]).1.

(** Two admissions that take their steps in turn. *)
Definition alternating : list (bool * Z) :=
  [(true, 10); (false, 10); (true, 11); (false, 11);
   (true, 12); (false, 12); (true, 13); (false, 13)].

(** ** Scenario data for the further properties *)

(** The customer of [closed] is admitted again with the same clock reading
    and random suffix, so with the same customer id. *)
Definition readmitted : State * JoinResponse := admitCustomer 10 "abc" (soon 10) closed.

(** ** Further properties of states *)

(** One call of [WorkerHelpers.updateStatus] as a handler makes it: the
    worker, the status, the value written to [currentCustomer] and the
    clock reading. *)
Record StatusUpdate := mkStatusUpdate {
  up_worker : string;
  up_status : Worker.Status;
  up_customer : option string;
  up_now : Z
}.

Definition apply_update (ws : list Worker.t) (u : StatusUpdate) : list Worker.t :=
  findOneAndUpdate (λ w, bool_decide (Worker._id w = up_worker u))
    (WorkerHelpers.updateData (up_status u) (given (up_customer u)) (up_now u)) ws.

(** A customer is assigned exactly when the status is [busy]. *)
Definition assigns_iff_busy (s : Worker.Status) (c : option string) : Prop :=
  s = Worker.busy ↔ ∃ cid, c = Some cid ∧ truthy cid = true.

Definition assigned_iff_busy (d : Store) : Prop :=
  Forall (λ w, assigns_iff_busy (Worker.status w) (Worker.currentCustomer w)) (workers d).

(** What identifies a worker. *)
Definition identity (w : Worker.t) : string * string * Z :=
  (Worker._id w, Worker.username w, Worker.createdAt w).

(** How the handling of one event can change the chat rooms. *)
Inductive rooms_step (rs : list ChatRoom.t) : list ChatRoom.t → Prop :=
| rs_same : rooms_step rs rs
| rs_opened roomId customerId (worker : Worker.t) now :
    roomId ∉ (ChatRoom.roomId <$> rs) →
    rooms_step rs
      (rs ++ [ChatRoom.mk roomId customerId (Worker._id worker) (Worker.username worker)
                ChatRoom.active now None 0])
| rs_closed roomId now :
    rooms_step rs
      (findOneAndUpdate (λ r, bool_decide (ChatRoom.roomId r = roomId))
         (ChatRoomHelpers.close now) rs).

(** [r'] is the room [r] at a later time: the same room, customer, worker
    and counters, with the status it had or ended. *)
Definition later_room (r r' : ChatRoom.t) : Prop :=
  ChatRoom.roomId r' = ChatRoom.roomId r
  ∧ ChatRoom.customerId r' = ChatRoom.customerId r
  ∧ ChatRoom.workerId r' = ChatRoom.workerId r
  ∧ ChatRoom.workerName r' = ChatRoom.workerName r
  ∧ ChatRoom.createdAt r' = ChatRoom.createdAt r
  ∧ ChatRoom.messageCount r' = ChatRoom.messageCount r
  ∧ (ChatRoom.status r' = ChatRoom.status r ∨ ChatRoom.status r' = ChatRoom.ended).




(** [activeCustomers] is in order: every customer is kept under its own
    id, has a room in the store, and no two customers have the same
    room. *)
Definition presence_ok (st : State) : Prop :=
  Forall (λ kc, Customer.id kc.2 = kc.1
                ∧ Customer.roomId kc.2 ∈ (ChatRoom.roomId <$> chatRooms (db st)))
    (activeCustomers st)
  ∧ NoDup (Customer.roomId <$> jsmap_values (activeCustomers st)).

(** ** Statistics and administration *)

(** [Model.countDocuments(q)] *)
Definition countDocuments {A} (P : A → Prop) `{∀ x, Decision (P x)} (c : list A) : nat :=
  length (filter P c).

(** [WorkerHelpers.getStats()]: the four counts, answered from one
    state of the store (no write comes between the queries of the
    [Promise.all]). *)
Record WorkerStats := mkWorkerStats {
  stat_total : nat;
  stat_available : nat;
  stat_busy : nat;
  stat_offline : nat
}.

Definition getStats (d : Store) : WorkerStats :=
  mkWorkerStats
    (length (workers d))
    (countDocuments (λ w, Worker.status w = Worker.available) (workers d))
    (countDocuments (λ w, Worker.status w = Worker.busy) (workers d))
    (countDocuments (λ w, Worker.status w = Worker.offline) (workers d)).

(** [ChatRoom.countDocuments({ status: 'active' })] of the admin
    statistics, answered from the same state as [getStats]. *)
Definition activeChats (d : Store) : nat :=
  countDocuments (λ r, ChatRoom.status r = ChatRoom.active) (chatRooms d).

(** [process.env.ADMIN_KEY || 'admin123'], from the value of the
    environment variable (empty when it is not set). *)
Definition ADMIN_KEY (env : string) : string := or_else env "admin123".

(** [Model.findOneAndDelete(q)]: the first document that matches is
    removed. *)
Fixpoint findOneAndDelete {A} (q : A → bool) (c : list A) : list A :=
  match c with
  | [] => []
  | d :: c' => if q d then c' else d :: findOneAndDelete q c'
  end.

(** [Worker.findByIdAndDelete(id)] *)
Definition findByIdAndDelete (workerId : string) (d : Store) : Store :=
  with_workers
    (findOneAndDelete (λ w, bool_decide (Worker._id w = workerId)) (workers d)) d.

(** The answers of [DELETE /api/admin/workers/:id]: 403, 500, 404, 400
    and success. *)
Inductive DeleteReply :=
| admin_access_required
| delete_server_error
| worker_not_found
| worker_in_chat
| worker_deleted.

(** [DELETE /api/admin/workers/:id], for the admin key of the request body
    and the id of the path, taken as running without another handler
    between the lookup and the deletion.  For an id that the store cannot
    cast the lookup throws, which is answered 500. *)
Definition delete_worker `{ObjectIds} (env adminKey workerId : string) (st : State)
  : State * DeleteReply :=
  if bool_decide (adminKey ≠ ADMIN_KEY env) then (st, admin_access_required)
  else if negb (castable workerId) then (st, delete_server_error)
  else
    match findById workerId (db st) with
    | None => (st, worker_not_found)
    | Some worker =>
        match Socket.prop (Worker.currentCustomer worker) with
        | Some _ => (st, worker_in_chat)
        | None =>
            let st := with_db (findByIdAndDelete workerId (db st)) st in
            (with_workerSockets (delete workerId (workerSockets st)) st, worker_deleted)
        end
    end.

(** ** Upload helpers of the storage configuration *)

(** [s.split(sep)] for a separator of one character: the pieces between
    the occurrences of the separator; a string without the separator
    (also the empty string) is the only piece. *)
Fixpoint split (sep : Ascii.ascii) (s : string) : list string :=
  match s with
  | EmptyString => [EmptyString]
  | String c s' =>
      if decide (c = sep) then EmptyString :: split sep s'
      else match split sep s' with
           | [] => [String c EmptyString]
           | piece :: pieces => String c piece :: pieces
           end
  end.

(** [parts.join(sep)] *)
Fixpoint join (sep : string) (parts : list string) : string :=
  match parts with
  | [] => EmptyString
  | part :: parts' =>
      match parts' with
      | [] => part
      | _ :: _ => part +:+ sep +:+ join sep parts'
      end
  end.

(** [parts.indexOf(x)]: the first index that holds [x], or [-1]. *)
Fixpoint indexOf (x : string) (parts : list string) : Z :=
  match parts with
  | [] => -1
  | part :: parts' =>
      if decide (part = x) then 0
      else let i := indexOf x parts' in if i <? 0 then -1 else i + 1
  end.

(** [parts.slice(start, end)], where a negative index counts from the
    end of the array. *)
Definition slice {A} (start end_ : Z) (parts : list A) : list A :=
  let len := Z.of_nat (length parts) in
  let k := if start <? 0 then Z.max (len + start) 0 else Z.min start len in
  let final := if end_ <? 0 then Z.max (len + end_) 0 else Z.min end_ len in
  take (Z.to_nat (final - k)) (drop (Z.to_nat k) parts).

(** [getPublicIdFromUrl(url)] for a string.  Reading a property of
    [undefined] throws, and the [catch] returns [null], which is [None];
    [parts[i]] is [undefined] where the array has no index [i]. *)
Definition getPublicIdFromUrl (url : string) : option string :=
  let parts := split "/"%char url in
  fileWithExt ← last parts;
  publicId ← head (split "."%char fileWithExt);
  let folderIndex := indexOf "upload" parts + 1 in
  if folderIndex <? Z.of_nat (length parts) - 1 then
    let folders := slice folderIndex (-1) parts in
    Some (join "/" (folders ++ [publicId]))
  else Some publicId.

(** The character does not occur in the string. *)
Fixpoint free_of (c : Ascii.ascii) (s : string) : bool :=
  match s with
  | EmptyString => true
  | String c' s' => negb (bool_decide (c' = c)) && free_of c s'
  end.

(** [s.startsWith(p)] *)
Definition startsWith (p s : string) : bool := String.prefix p s.

(** [s.includes(sub)]: [sub] occurs somewhere in [s]. *)
Fixpoint includes (sub s : string) : bool :=
  startsWith sub s
  || match s with
     | EmptyString => false
     | String _ s' => includes sub s'
     end.

(** [/a|b|c/.test(s)] for alternatives of plain characters: one of them
    occurs somewhere in [s]. *)
Definition test (alternatives : list string) (s : string) : bool :=
  existsb (λ a, includes a s) alternatives.

Definition allowedImages : list string := ["jpeg"; "jpg"; "png"; "gif"; "webp"].
Definition allowedDocs : list string := ["pdf"; "doc"; "docx"; "txt"].
Definition allowedAudio : list string := ["mp3"; "wav"; "ogg"; "m4a"; "webm"; "aac"].

Section Filters.
(** [String.prototype.toLowerCase] *)
Variable toLowerCase : string → string.

(** [fileFilter(req, file, cb)]: [true] is [cb(null, true)], [false] is
    [cb(new Error(...))]. *)
Definition fileFilter (originalname mimetype : string) : bool :=
  let extname := toLowerCase originalname in
  let mimetype := toLowerCase mimetype in
  let isImage := test allowedImages extname || startsWith "image/" mimetype in
  let isDoc :=
    test allowedDocs extname || includes "document" mimetype || includes "text" mimetype in
  let isAudio := test allowedAudio extname || startsWith "audio/" mimetype in
  isImage || isDoc || isAudio.

(** [voiceFilter(req, file, cb)] *)
Definition voiceFilter (originalname mimetype : string) : bool :=
  let extname := test allowedAudio (toLowerCase originalname) in
  let mimetype := startsWith "audio/" mimetype in
  mimetype || extname.
End Filters.

(** Lower case of the letters A to Z, other characters as they are. *)
Definition lower (c : Ascii.ascii) : Ascii.ascii :=
  let n := Ascii.nat_of_ascii c in
  if (65 <=? n)%nat && (n <=? 90)%nat then Ascii.ascii_of_nat (n + 32) else c.

Fixpoint lowerCase (s : string) : string :=
  match s with
  | EmptyString => EmptyString
  | String c s' => String (lower c) (lowerCase s')
  end.

(** * Verification *)

(** ** Collections *)

Section CollectionFacts.
Context {A K : Type} `{EqDecision K} (key : A → K).

(** On a collection whose key is unique, updating the first document with
    a given key is updating every such document. *)
Lemma findOneAndUpdate_unique (k : K) (u : A → A) (c : list A) :
  NoDup (key <$> c) →
  findOneAndUpdate (λ d, bool_decide (key d = k)) u c
  = updateMany (λ d, bool_decide (key d = k)) u c.
Proof.
  unfold updateMany.
  induction c as [|d c IH]; intros Hnd; [done|].
  rewrite fmap_cons in Hnd. apply NoDup_cons in Hnd as [Hd Hnd].
  cbn [findOneAndUpdate fmap list_fmap]. case_bool_decide as Hk.
  - f_equal. symmetry. etrans; [|apply list_fmap_id].
    apply list_fmap_ext. intros i d' Hd'.
    rewrite bool_decide_eq_false_2; [done|].
    intros Hk'. apply Hd. rewrite Hk, <- Hk'.
    apply list_elem_of_fmap_2. eapply list_elem_of_lookup_2; eauto.
  - f_equal. by apply IH.
Qed.

Lemma findOneAndUpdate_keys (q : A → bool) (u : A → A) (c : list A) :
  (∀ d, key (u d) = key d) →
  key <$> findOneAndUpdate q u c = key <$> c.
Proof.
  intros Hu. induction c as [|d c IH]; [done|].
  cbn [findOneAndUpdate]. destruct (q d); rewrite !fmap_cons; [by rewrite Hu|].
  by rewrite IH.
Qed.

Lemma insertUnique_Some (d : A) (c c' : list A) :
  insertUnique key d c = Some c' ↔ (key d ∉ (key <$> c)) ∧ c' = c ++ [d].
Proof.
  unfold insertUnique. case_bool_decide; split.
  - done.
  - by intros [? _].
  - intros [= <-]. done.
  - intros [_ ->]. done.
Qed.

Lemma insertUnique_None (d : A) (c : list A) :
  insertUnique key d c = None ↔ key d ∈ (key <$> c).
Proof. unfold insertUnique. case_bool_decide; split; done. Qed.

End CollectionFacts.

Section FindFacts.
Context {A : Type}.

Lemma findOne_None (q : A → bool) (c : list A) :
  findOne q c = None ↔ ∀ d, d ∈ c → q d = false.
Proof.
  induction c as [|x c IH]; cbn [findOne].
  - split; [|done]. by intros _ d ?%elem_of_nil.
  - destruct (q x) eqn:Hq; split.
    + done.
    + intros Hall. rewrite Hall in Hq; [done|left].
    + intros Hn d [->|Hd]%elem_of_cons; [done|]. by apply IH.
    + intros Hall. apply IH. intros d Hd. apply Hall. by right.
Qed.

(** The document that was updated is the one a query by the same
    condition finds. *)
Lemma findOne_updated (q : A → bool) (u : A → A) (c : list A) :
  (∀ d, q (u d) = q d) →
  findOne q (findOneAndUpdate q u c) = u <$> findOne q c.
Proof.
  intros Hu. induction c as [|x c IH]; [done|].
  cbn [findOne findOneAndUpdate]. destruct (q x) eqn:Hq; cbn [findOne].
  - by rewrite Hu, Hq.
  - by rewrite Hq.
Qed.

(** A query that excludes the updated document, before and after the
    update, is not affected. *)
Lemma findOne_not_updated (q q' : A → bool) (u : A → A) (c : list A) :
  (∀ d, q d = true → q' d = false ∧ q' (u d) = false) →
  findOne q' (findOneAndUpdate q u c) = findOne q' c.
Proof.
  intros Hu. induction c as [|x c IH]; [done|].
  cbn [findOne findOneAndUpdate]. destruct (q x) eqn:Hq; cbn [findOne].
  - destruct (Hu x Hq) as [-> ->]. done.
  - by rewrite IH.
Qed.




End FindFacts.

Section JsMapFacts.
Context {V : Type}.

Lemma jsmap_get_delete (k : string) (m : list (string * V)) :
  jsmap_get k (jsmap_delete k m) = None.
Proof.
  unfold jsmap_get, jsmap_delete.
  replace (findOne (λ kv : string * V, bool_decide (kv.1 = k)) (filter (λ kv, kv.1 ≠ k) m))
    with (@None (string * V)); [done|].
  symmetry. apply findOne_None. intros d [Hd _]%list_elem_of_filter.
  by apply bool_decide_eq_false_2.
Qed.

End JsMapFacts.

(** ** Selection of a worker *)

Lemma findAvailableWorker_None (d : Store) :
  findAvailableWorker d = None
  ↔ ∀ w, w ∈ workers d → Worker.status w ≠ Worker.available.
Proof.
  unfold findAvailableWorker, WorkerHelpers.findAvailable.
  rewrite head_None. split.
  - intros Hnil w Hw Hav.
    assert (Hin : w ∈ filter (λ w, Worker.status w = Worker.available) (workers d))
      by (apply list_elem_of_filter; done).
    destruct (filter _ (workers d)) as [|x l]; [by apply elem_of_nil in Hin|].
    done.
  - intros Hall.
    destruct (filter _ (workers d)) as [|x l] eqn:Hf; [done|].
    assert (Hin : x ∈ filter (λ w, Worker.status w = Worker.available) (workers d))
      by (rewrite Hf; left).
    apply list_elem_of_filter in Hin as [Hav Hx]. by destruct (Hall x Hx).
Qed.

Lemma findAvailableWorker_first (d : Store) (pre post : list Worker.t) (w : Worker.t) :
  workers d = pre ++ w :: post →
  Forall (λ w', Worker.status w' ≠ Worker.available) pre →
  Worker.status w = Worker.available →
  findAvailableWorker d = Some w.
Proof.
  intros Hws Hpre Hw.
  unfold findAvailableWorker, WorkerHelpers.findAvailable.
  rewrite Hws, filter_app.
  replace (filter (λ w0, Worker.status w0 = Worker.available) pre) with (@nil Worker.t).
  - rewrite app_nil_l, filter_cons_True by done. done.
  - symmetry. clear Hws. induction Hpre as [|x l Hx Hl IH]; [done|].
    rewrite filter_cons_False by exact Hx. done.
Qed.


(** ** The admission route *)

Lemma admitCustomer_busy (now : Z) (random : string) (resumed : Resumed) (st : State) :
  findAvailableWorker (db st) = None →
  admitCustomer now random resumed st = (st, busy_for (new_customerId now random)).
Proof.
  intros Hnone. unfold admitCustomer. cbn -[findAvailableWorker new_customerId].
  by rewrite Hnone.
Qed.

(** The route on a pool that has an available worker: the three store
    writes in order, each of the two saves possibly refused. *)
Lemma admitCustomer_found (now : Z) (random : string) (resumed : Resumed)
    (st : State) (w : Worker.t) :
  findAvailableWorker (db st) = Some w →
  let customerId := new_customerId now random in
  let roomId := room_of customerId w in
  let d1 := WorkerHelpers.updateStatus (Worker._id w) Worker.busy
              (given (Some customerId)) (after_find resumed) (db st) in
  admitCustomer now random resumed st =
    match ChatRoomHelpers.create roomId customerId w (after_updateStatus resumed) d1 with
    | None => (with_db d1 st, server_error)
    | Some d2 =>
        match saveCustomerSession customerId roomId w (after_create resumed) d2 with
        | None => (with_db d2 st, server_error)
        | Some d3 =>
            (with_activeCustomers
               (jsmap_set customerId
                  (Customer.mk customerId roomId (Worker._id w) (Worker.username w)
                     (after_save resumed))
                  (activeCustomers st)) (with_db d3 st),
             connected customerId roomId (Worker._id w) (Worker.username w))
        end
    end.
Proof.
  intros Hw customerId roomId d1. subst roomId d1. unfold admitCustomer.
  cbn -[ChatRoomHelpers.create saveCustomerSession WorkerHelpers.updateStatus
        new_customerId room_of jsmap_set findAvailableWorker].
  rewrite Hw.
  cbn -[ChatRoomHelpers.create saveCustomerSession WorkerHelpers.updateStatus
        new_customerId room_of jsmap_set findAvailableWorker].
  destruct (ChatRoomHelpers.create _ _ _ _ _) as [d2|]; [|done].
  cbn -[ChatRoomHelpers.create saveCustomerSession WorkerHelpers.updateStatus
        new_customerId room_of jsmap_set findAvailableWorker].
  destruct (saveCustomerSession _ _ _ _ _) as [d3|]; done.
Qed.

(** The two saves of the route leave the workers as the reservation
    made them. *)
Lemma admitCustomer_workers (now : Z) (random : string) (resumed : Resumed)
    (st : State) (w : Worker.t) :
  findAvailableWorker (db st) = Some w →
  workers (db (admitCustomer now random resumed st).1)
  = workers (WorkerHelpers.updateStatus (Worker._id w) Worker.busy
               (given (Some (new_customerId now random))) (after_find resumed) (db st)).
Proof.
  intros Hw. rewrite (admitCustomer_found now random resumed st w Hw).
  unfold ChatRoomHelpers.create, saveCustomerSession.
  destruct (insertUnique ChatRoom.roomId _ _) as [rs|]; cbn; [|done].
  by destruct (insertUnique CustomerSession.customerId _ _).
Qed.

(** C10: when no worker is available, the admission route answers
    [busy], with the customer id it generated from the clock reading at
    the arrival of the request and the random suffix, and with the text
    that offers the callback; it is the only thing the route does: the
    whole state (store, [activeCustomers], every other in-memory table)
    is left as it was. *)
Theorem admit_busy_leaves_state `{!ObjectIds} (now : Z) (random : string)
    (resumed : Resumed) (st : State) :
  (∀ w, w ∈ workers (db st) → Worker.status w ≠ Worker.available) →
  handle st (PostCustomerJoin now random resumed)
  = (st, [respond
            (busy ("customer_" +:+ pretty now +:+ "_" +:+ random)
               "All our agents are currently busy. Please leave your contact info for a callback.")]).
Proof.
  intros Hnone. apply findAvailableWorker_None in Hnone.
  cbn [handle]. by rewrite admitCustomer_busy.
Qed.

Lemma admit_busy_leaves_state_witness :
  handle (boot [alice; bob]) (PostCustomerJoin 10 "abc" (soon 10))
  = (boot [alice; bob],
     [respond
        (busy "customer_10_abc"
           "All our agents are currently busy. Please leave your contact info for a callback.")]).
Proof.
  apply (admit_busy_leaves_state 10 "abc" (soon 10) (boot [alice; bob])).
  intros w Hw. cbn in Hw.
  apply elem_of_cons in Hw as [->|Hw]; [done|].
  apply list_elem_of_singleton in Hw as ->. done.
Defined.

(** C6 as stated fails: with two available workers the route connects
    the customer to the first one in the store, although the second has
    the lower last-active time. *)
Lemma admit_ignores_lastActive :
  ∃ w, findAvailableWorker (db (boot [carol; dave])) = Some w
    ∧ (admitCustomer 1000 "r" (soon 1000) (boot [carol; dave])).2
      = connected "customer_1000_r" "room_customer_1000_r_w3"
          (Worker._id w) (Worker.username w)
    ∧ ¬ idle_longest (db (boot [carol; dave])) w.
Proof.
  exists carol. split; [reflexivity|]. split; [reflexivity|].
  intros (_ & _ & Hmin).
  assert (Hd : dave ∈ workers (db (boot [carol; dave]))).
  { cbn. apply elem_of_cons. right. apply elem_of_cons. by left. }
  specialize (Hmin dave Hd eq_refl). cbn in Hmin. lia.
Qed.

(** C6, amended: the route selects the first available worker in the
    store's order, whatever the last-active times are; a [connected]
    response names that worker, and the response is [connected] when the
    room id and the customer id are new to the store. *)
Theorem admit_selects_first_available (now : Z) (random : string) (resumed : Resumed)
    (st : State) (pre post : list Worker.t) (w : Worker.t) :
  workers (db st) = pre ++ w :: post →
  Forall (λ w', Worker.status w' ≠ Worker.available) pre →
  Worker.status w = Worker.available →
  let customerId := new_customerId now random in
  let response := (admitCustomer now random resumed st).2 in
  findAvailableWorker (db st) = Some w
  ∧ (∀ cid rid wid wname, response = connected cid rid wid wname →
       wid = Worker._id w ∧ wname = Worker.username w)
  ∧ (room_of customerId w ∉ (ChatRoom.roomId <$> chatRooms (db st)) →
     customerId ∉ (CustomerSession.customerId <$> customerSessions (db st)) →
     response = connected customerId (room_of customerId w) (Worker._id w)
                  (Worker.username w)).
Proof.
  intros Hws Hpre Hw customerId response.
  pose proof (findAvailableWorker_first _ _ _ _ Hws Hpre Hw) as Hfind.
  split; [done|]. subst response.
  rewrite (admitCustomer_found now random resumed st w Hfind). fold customerId.
  unfold ChatRoomHelpers.create, saveCustomerSession.
  cbn [chatRooms WorkerHelpers.updateStatus with_workers].
  destruct (insertUnique ChatRoom.roomId _ (chatRooms (db st))) as [rs|] eqn:Hrs;
    cbn [mbind option_bind customerSessions with_chatRooms].
  - destruct (insertUnique CustomerSession.customerId _ _)
      as [cs|] eqn:Hcs; cbn [mbind option_bind snd].
    + split; [by intros ???? [= _ _ <- <-]|done].
    + split; [done|]. intros _ Hfresh.
      apply insertUnique_None in Hcs. done.
  - split; [done|]. intros Hfresh _.
    apply insertUnique_None in Hrs. done.
Qed.

Lemma admit_selects_first_available_witness :
  findAvailableWorker (db (boot [alice; carol; dave])) = Some carol
  ∧ (∀ cid rid wid wname,
       (admitCustomer 1000 "r" (soon 1000) (boot [alice; carol; dave])).2
       = connected cid rid wid wname →
       wid = Worker._id carol ∧ wname = Worker.username carol)
  ∧ (room_of (new_customerId 1000 "r") carol
       ∉ (ChatRoom.roomId <$> chatRooms (db (boot [alice; carol; dave]))) →
     new_customerId 1000 "r"
       ∉ (CustomerSession.customerId <$> customerSessions (db (boot [alice; carol; dave]))) →
     (admitCustomer 1000 "r" (soon 1000) (boot [alice; carol; dave])).2
     = connected (new_customerId 1000 "r") (room_of (new_customerId 1000 "r") carol)
         (Worker._id carol) (Worker.username carol)).
Proof.
  apply (admit_selects_first_available 1000 "r" (soon 1000) (boot [alice; carol; dave])
           [alice] [dave] carol).
  - reflexivity.
  - repeat constructor. cbn. discriminate.
  - reflexivity.
Defined.

(** ** Messages *)

(** C9 as stated fails: a message that the store refuses (here the
    worker's message, which is given the id of the message the customer
    sent in the same millisecond) is reported to its sender and to nobody
    else; the customer in the room is sent nothing, so the message is not
    visible to the recipient. *)
Lemma failed_save_is_not_broadcast :
  MessageHelpers.saveMessage (messageData_of hello 20) (db greeted) = None
  ∧ handle greeted (SendMessage "s1" hello 20)
    = (greeted, [emit (to_socket "s1") message_error])
  ∧ receives greeted "c1" (to_room "room_customer_10_abc_w1") = true
  ∧ receives greeted "c1" (to_socket "s1") = false.
Proof. repeat split; vm_compute; reflexivity. Qed.

(** C9, amended: when the save of a submitted message fails, the sending
    socket, and only it, is sent [message-error]; nothing is broadcast to
    the room and the state is what it was, because the save comes before
    the broadcast. *)
Theorem failed_save_only_reports `{!ObjectIds} (sid : string) (data : SendData) (now : Z)
    (st : State) :
  is_Some (sockets st !! sid) →
  MessageHelpers.saveMessage (messageData_of data now) (db st) = None →
  handle st (SendMessage sid data now) = (st, [emit (to_socket sid) message_error])
  ∧ ∀ sid', receives st sid' (to_socket sid) = true → sid' = sid.
Proof.
  intros [sk Hsk] Hsave. split.
  - cbn [handle]. unfold on_socket. rewrite Hsk.
    unfold on_send_message. by rewrite Hsave.
  - intros sid'. unfold receives. destruct (sockets st !! sid'); [|done].
    by intros ?%bool_decide_eq_true.
Qed.

Lemma failed_save_only_reports_witness :
  handle chatting (SendMessage "c1" untitled 20)
  = (chatting, [emit (to_socket "c1") message_error])
  ∧ ∀ sid', receives chatting sid' (to_socket "c1") = true → sid' = "c1".
Proof.
  apply (failed_save_only_reports "c1" untitled 20 chatting).
  - vm_compute. eauto.
  - vm_compute. reflexivity.
Defined.

(** C8 as stated fails: a message sent to a room that has ended is saved
    and broadcast like any other, and ending the room again is carried
    out again.  Where an [end-chat] is dropped, it is for the worker id
    it names and not for the state of the session: with a worker id that
    the store cannot cast it is dropped for the ended room and for the
    active room alike. *)
Lemma ended_room_still_takes_events :
  (ChatRoom.status <$> findOne (λ r, bool_decide (ChatRoom.roomId r = "room_customer_10_abc_w1"))
     (chatRooms (db closed))) = Some ChatRoom.ended
  ∧ (handle closed (SendMessage "c1" hi 40)).2
    = [emit (to_room "room_customer_10_abc_w1") (new_message (messageData_of hi 40))]
  ∧ messages (db (handle closed (SendMessage "c1" hi 40)).1)
    = [MessageHelpers.document (messageData_of hi 40)]
  ∧ (handle closed (EndChat "s1" "room_customer_10_abc_w1" "w1" 50)).2
    = [emit (to_room "room_customer_10_abc_w1") chat_ended]
  ∧ (ChatRoom.endedAt <$> findOne (λ r, bool_decide (ChatRoom.roomId r = "room_customer_10_abc_w1"))
       (chatRooms (db (handle closed (EndChat "s1" "room_customer_10_abc_w1" "w1" 50)).1)))
    = Some (Some 50)
  ∧ castable "zz" = false
  ∧ handle closed (EndChat "s1" "room_customer_10_abc_w1" "zz" 50) = (closed, [])
  ∧ handle chatting (EndChat "s1" "room_customer_10_abc_w1" "zz" 50) = (chatting, []).
Proof. repeat split; vm_compute; reflexivity. Qed.

(** C8, amended: no handler looks at the status of the session.  What
    [send-message] sends and stores does not depend on the chat rooms of
    the store, which it leaves as they are.  What [end-chat] does depends
    on the worker id it names and not on the room: with a worker id that
    the store can cast it broadcasts [chat-ended] and closes the room with
    the given id whatever its status was (the room gets status [ended]
    and a new end time); with a worker id that the store cannot cast
    nothing is sent and nothing changes, whatever the room is. *)
Theorem session_state_is_not_checked `{!ObjectIds} (sid : string) (data : SendData)
    (now : Z) (st : State) (rooms : list ChatRoom.t) :
  is_Some (sockets st !! sid) →
  let st' := with_db (with_chatRooms rooms (db st)) st in
  (handle st' (SendMessage sid data now)).2 = (handle st (SendMessage sid data now)).2
  ∧ messages (db (handle st' (SendMessage sid data now)).1)
    = messages (db (handle st (SendMessage sid data now)).1)
  ∧ chatRooms (db (handle st' (SendMessage sid data now)).1) = rooms
  ∧ (∀ roomId workerId, castable workerId = true →
       (handle st (EndChat sid roomId workerId now)).2 = [emit (to_room roomId) chat_ended]
       ∧ (handle st' (EndChat sid roomId workerId now)).2
         = [emit (to_room roomId) chat_ended])
  ∧ (∀ roomId workerId r, castable workerId = true →
       findOne (λ r, bool_decide (ChatRoom.roomId r = roomId)) (chatRooms (db st)) = Some r →
       findOne (λ r, bool_decide (ChatRoom.roomId r = roomId))
         (chatRooms (db (handle st (EndChat sid roomId workerId now)).1))
       = Some (ChatRoomHelpers.close now r))
  ∧ (∀ roomId workerId, castable workerId = false →
       handle st (EndChat sid roomId workerId now) = (st, [])
       ∧ handle st' (EndChat sid roomId workerId now) = (st', []))
  ∧ (∀ r, ChatRoom.status (ChatRoomHelpers.close now r) = ChatRoom.ended
          ∧ ChatRoom.endedAt (ChatRoomHelpers.close now r) = Some now).
Proof.
  intros [sk Hsk] st'. subst st'.
  cbn [handle]. unfold on_socket. cbn [sockets with_db]. rewrite Hsk.
  split; [|split; [|split; [|split; [|split; [|split]]]]].
  - unfold on_send_message, MessageHelpers.saveMessage.
    cbn [db with_db messages with_chatRooms].
    destruct (MessageHelpers.valid _); [|done].
    by destruct (insertUnique Message.messageId _ (messages (db st))).
  - unfold on_send_message, MessageHelpers.saveMessage.
    cbn [db with_db messages with_chatRooms].
    destruct (MessageHelpers.valid _); [|done].
    by destruct (insertUnique Message.messageId _ (messages (db st))).
  - unfold on_send_message, MessageHelpers.saveMessage.
    cbn [db with_db messages with_chatRooms].
    destruct (MessageHelpers.valid _); [|done].
    by destruct (insertUnique Message.messageId _ (messages (db st))).
  - intros roomId workerId Hcast. unfold on_end_chat. rewrite Hcast.
    cbn [db with_db activeCustomers].
    by destruct (findOne _ (jsmap_values _)).
  - intros roomId workerId r Hcast Hr. unfold on_end_chat. rewrite Hcast.
    cbn [db with_db].
    assert (Hend : findOne (λ r, bool_decide (ChatRoom.roomId r = roomId))
              (chatRooms (ChatRoomHelpers.end_ roomId now
                 (WorkerHelpers.updateStatus workerId Worker.available (given None)
                    now (db st))))
            = Some (ChatRoomHelpers.close now r)).
    { unfold ChatRoomHelpers.end_, WorkerHelpers.updateStatus.
      cbn [chatRooms with_chatRooms with_workers].
      rewrite findOne_updated by done. by rewrite Hr. }
    by destruct (findOne _ (jsmap_values _)).
  - intros roomId workerId Hcast. unfold on_end_chat. by rewrite Hcast.
  - done.
Qed.

Lemma session_state_is_not_checked_witness :
  let st' := with_db (with_chatRooms (chatRooms (db closed)) (db chatting)) chatting in
  (handle st' (SendMessage "c1" hi 40)).2 = (handle chatting (SendMessage "c1" hi 40)).2
  ∧ messages (db (handle st' (SendMessage "c1" hi 40)).1)
    = messages (db (handle chatting (SendMessage "c1" hi 40)).1)
  ∧ chatRooms (db (handle st' (SendMessage "c1" hi 40)).1) = chatRooms (db closed)
  ∧ (∀ roomId workerId, castable workerId = true →
       (handle chatting (EndChat "c1" roomId workerId 40)).2
       = [emit (to_room roomId) chat_ended]
       ∧ (handle st' (EndChat "c1" roomId workerId 40)).2
         = [emit (to_room roomId) chat_ended])
  ∧ (∀ roomId workerId r, castable workerId = true →
       findOne (λ r, bool_decide (ChatRoom.roomId r = roomId)) (chatRooms (db chatting))
       = Some r →
       findOne (λ r, bool_decide (ChatRoom.roomId r = roomId))
         (chatRooms (db (handle chatting (EndChat "c1" roomId workerId 40)).1))
       = Some (ChatRoomHelpers.close 40 r))
  ∧ (∀ roomId workerId, castable workerId = false →
       handle chatting (EndChat "c1" roomId workerId 40) = (chatting, [])
       ∧ handle st' (EndChat "c1" roomId workerId 40) = (st', []))
  ∧ (∀ r, ChatRoom.status (ChatRoomHelpers.close 40 r) = ChatRoom.ended
          ∧ ChatRoom.endedAt (ChatRoomHelpers.close 40 r) = Some 40).
Proof.
  apply (session_state_is_not_checked "c1" hi 40 chatting (chatRooms (db closed))).
  vm_compute. eauto.
Defined.

(** ** Presence of workers *)

Lemma updateData_id s cc now w :
  Worker._id (WorkerHelpers.updateData s cc now w) = Worker._id w.
Proof. by destruct cc. Qed.

Lemma updateData_username s cc now w :
  Worker.username (WorkerHelpers.updateData s cc now w) = Worker.username w.
Proof. by destruct cc. Qed.

Lemma updateData_status s cc now w :
  Worker.status (WorkerHelpers.updateData s cc now w) = s.
Proof. by destruct cc. Qed.

Lemma updateData_lastActive s cc now w :
  Worker.lastActive (WorkerHelpers.updateData s cc now w) = now.
Proof. by destruct cc. Qed.

(** The assigned customer is overwritten also when the argument was left
    out: it is then [null]. *)
Lemma updateData_currentCustomer s cc now w :
  Worker.currentCustomer (WorkerHelpers.updateData s cc now w)
  = match cc with undefined => None | given v => v end.
Proof. by destruct cc. Qed.

Lemma findById_updateStatus_same workerId s cc now d :
  findById workerId (WorkerHelpers.updateStatus workerId s cc now d)
  = WorkerHelpers.updateData s cc now <$> findById workerId d.
Proof.
  unfold findById, WorkerHelpers.updateStatus. cbn [workers with_workers].
  apply findOne_updated. intros w. by rewrite updateData_id.
Qed.

Lemma findById_updateStatus_other workerId other s cc now d :
  other ≠ workerId →
  findById other (WorkerHelpers.updateStatus workerId s cc now d)
  = findById other d.
Proof.
  intros Hne. unfold findById, WorkerHelpers.updateStatus.
  cbn [workers with_workers]. apply findOne_not_updated.
  intros w Hw%bool_decide_eq_true. rewrite updateData_id.
  split; apply bool_decide_eq_false_2; congruence.
Qed.

Lemma findById_updateStatus_is_Some workerId other s cc now d :
  is_Some (findById other d) →
  is_Some (findById other (WorkerHelpers.updateStatus workerId s cc now d)).
Proof.
  intros Hs. destruct (decide (other = workerId)) as [->|Hne].
  - rewrite findById_updateStatus_same. by apply fmap_is_Some.
  - by rewrite findById_updateStatus_other.
Qed.

(** C7 as stated fails: when a worker who is busy with a customer joins
    again (on a new socket), the worker is made available and the
    assigned customer is cleared. *)
Lemma worker_join_resets_busy_worker :
  (Worker.status <$> findById "w1" (db chatting)) = Some Worker.busy
  ∧ (Worker.currentCustomer <$> findById "w1" (db chatting))
    = Some (Some "customer_10_abc")
  ∧ let st' := (run chatting [Connection "s2"; WorkerJoin "s2" "w1" 30]).1 in
    (Worker.status <$> findById "w1" (db st')) = Some Worker.available
    ∧ (Worker.currentCustomer <$> findById "w1" (db st')) = Some None.
Proof. repeat split; vm_compute; reflexivity. Qed.

(** C7, amended: [worker-join] binds the socket to the worker (the socket
    is recorded for the worker and is in the worker's room) and sets the
    worker's availability to [available] whatever it was before; other
    workers are not touched. *)
Theorem worker_join_makes_available `{!ObjectIds}
    (sid workerId : string) (now : Z) (st : State) :
  is_Some (sockets st !! sid) →
  let st' := (handle st (WorkerJoin sid workerId now)).1 in
  workerSockets st' !! workerId = Some sid
  ∧ (∃ sk', sockets st' !! sid = Some sk'
       ∧ Socket.workerId sk' = Some workerId
       ∧ worker_room workerId ∈ Socket.rooms sk')
  ∧ (∀ w, findById workerId (db st) = Some w →
       ∃ w', findById workerId (db st') = Some w'
         ∧ Worker.status w' = Worker.available
         ∧ Worker._id w' = Worker._id w
         ∧ Worker.username w' = Worker.username w)
  ∧ (∀ other, other ≠ workerId → findById other (db st') = findById other (db st)).
Proof.
  intros [sk Hsk] st'. subst st'.
  cbn [handle]. unfold on_socket. rewrite Hsk. unfold on_worker_join.
  cbn [fst workerSockets sockets db with_db with_workerSockets with_sockets].
  split; [apply lookup_insert_eq|]. split.
  - eexists. split; [apply lookup_insert_eq|]. split; [done|].
    cbn [Socket.rooms Socket.set_workerId Socket.join]. set_solver.
  - split.
    + intros w Hw. rewrite findById_updateStatus_same, Hw. cbn [fmap option_fmap option_map].
      eexists. split; [done|].
      by rewrite updateData_status, updateData_id, updateData_username.
    + intros other Hne. by apply findById_updateStatus_other.
Qed.

Lemma worker_join_makes_available_witness :
  let st' := (handle chatting (WorkerJoin "s1" "w1" 30)).1 in
  workerSockets st' !! "w1" = Some "s1"
  ∧ (∃ sk', sockets st' !! "s1" = Some sk'
       ∧ Socket.workerId sk' = Some "w1"
       ∧ worker_room "w1" ∈ Socket.rooms sk')
  ∧ (∀ w, findById "w1" (db chatting) = Some w →
       ∃ w', findById "w1" (db st') = Some w'
         ∧ Worker.status w' = Worker.available
         ∧ Worker._id w' = Worker._id w
         ∧ Worker.username w' = Worker.username w)
  ∧ (∀ other, other ≠ "w1" → findById other (db st') = findById other (db chatting)).
Proof.
  apply (worker_join_makes_available "s1" "w1" 30 chatting).
  vm_compute. eauto.
Defined.

(** ** Disconnect of a customer *)

Lemma worker_left_activeCustomers `{!ObjectIds} sk now st :
  activeCustomers (worker_left sk now st) = activeCustomers st.
Proof.
  unfold worker_left. destruct (Socket.prop _) as [workerId|]; [|done].
  by destruct (castable workerId).
Qed.

Lemma worker_left_sockets `{!ObjectIds} sk now st :
  sockets (worker_left sk now st) = sockets st.
Proof.
  unfold worker_left. destruct (Socket.prop _) as [workerId|]; [|done].
  by destruct (castable workerId).
Qed.

Lemma worker_left_chatRooms `{!ObjectIds} sk now st :
  chatRooms (db (worker_left sk now st)) = chatRooms (db st).
Proof.
  unfold worker_left. destruct (Socket.prop _) as [workerId|]; [|done].
  by destruct (castable workerId).
Qed.

Lemma worker_left_findById `{!ObjectIds} sk now st workerId :
  is_Some (findById workerId (db st)) →
  is_Some (findById workerId (db (worker_left sk now st))).
Proof.
  unfold worker_left. destruct (Socket.prop _) as [workerId'|]; [|done].
  destruct (castable workerId'); [|done].
  cbn [db with_db with_workerSockets]. apply findById_updateStatus_is_Some.
Qed.

Lemma findOne_room_end_ roomId now d :
  findOne (λ r, bool_decide (ChatRoom.roomId r = roomId))
    (chatRooms (ChatRoomHelpers.end_ roomId now d))
  = ChatRoomHelpers.close now
      <$> findOne (λ r, bool_decide (ChatRoom.roomId r = roomId)) (chatRooms d).
Proof.
  unfold ChatRoomHelpers.end_. cbn [chatRooms with_chatRooms].
  by apply findOne_updated.
Qed.

(** C4 as stated fails, in two ways.  After the customer's socket is lost
    in the middle of the chat the room is [ended], not [abandoned].  And
    an active session is not what the handler goes by: when the customer's
    entry in [activeCustomers] is missing while the room is still active
    in the store (after a second socket that had joined under the
    customer's id was lost, or after the server process was started
    again), the loss of the customer's socket sends nothing to the
    worker, releases no worker and leaves the room active; after the
    restart Alice stays busy with the customer. *)
Lemma customer_drop_ends_the_room :
  let room := λ st,
    ChatRoom.status <$> findOne (λ r, bool_decide (ChatRoom.roomId r = "room_customer_10_abc_w1"))
                          (chatRooms (db st)) in
  let gone := λ sid st, (with_sockets (delete sid (sockets st)) st, @nil Output) in
  (room chatting = Some ChatRoom.active
   ∧ room (handle chatting (Disconnect "c1" 40)).1 = Some ChatRoom.ended
   ∧ room (handle chatting (Disconnect "c1" 40)).1 ≠ Some ChatRoom.abandoned)
  ∧ (room impersonated = Some ChatRoom.active
     ∧ sockets impersonated !! "c1" ≠ None
     ∧ jsmap_get "customer_10_abc" (activeCustomers impersonated) = None
     ∧ handle impersonated (Disconnect "c1" 40) = gone "c1" impersonated)
  ∧ (room restarted = Some ChatRoom.active
     ∧ jsmap_get "customer_10_abc" (activeCustomers restarted) = None
     ∧ handle restarted (Disconnect "c2" 40) = gone "c2" restarted
     ∧ (Worker.status <$> findById "w1" (db restarted)) = Some Worker.busy
     ∧ (Worker.currentCustomer <$> findById "w1" (db restarted))
       = Some (Some "customer_10_abc")).
Proof. repeat split; vm_compute; done. Qed.

(** C4, amended: what the loss of a customer's socket does is decided by
    [activeCustomers], not by the session in the store.  When the customer
    is in [activeCustomers], [customer-disconnected] is sent to the room
    of the customer's worker (where every socket that joined as that
    worker receives it), the worker becomes [available] with no assigned
    customer, the room the socket had joined gets status [ended] with the
    time of the disconnect, and the customer's entry in [activeCustomers]
    is removed.  When the customer is not in [activeCustomers], nothing
    is sent, the rooms and [activeCustomers] are left as they are, also a
    room of the customer that is still active, and (unless the socket had
    joined as a worker too) only the socket is removed: no worker is
    released. *)
Theorem customer_drop_releases_worker `{!ObjectIds} (sid customerId roomId : string)
    (now : Z) (st : State) (sk : Socket.t) :
  sockets st !! sid = Some sk →
  Socket.prop (Socket.customerId sk) = Some customerId →
  Socket.prop (Socket.roomId sk) = Some roomId →
  let st' := (handle st (Disconnect sid now)).1 in
  (∀ customer, jsmap_get customerId (activeCustomers st) = Some customer →
     let workerId := Customer.workerId customer in
     (handle st (Disconnect sid now)).2
       = [emit (to_room (worker_room workerId)) (customer_disconnected customerId)]
     ∧ (∀ sid' sk', sid' ≠ sid → sockets st !! sid' = Some sk' →
          worker_room workerId ∈ Socket.rooms sk' →
          receives st' sid' (to_room (worker_room workerId)) = true)
     ∧ (is_Some (findById workerId (db st)) →
          ∃ w', findById workerId (db st') = Some w'
            ∧ Worker.status w' = Worker.available
            ∧ Worker.currentCustomer w' = None)
     ∧ (∀ r, findOne (λ r, bool_decide (ChatRoom.roomId r = roomId)) (chatRooms (db st))
             = Some r →
          ∃ r', findOne (λ r, bool_decide (ChatRoom.roomId r = roomId)) (chatRooms (db st'))
                = Some r'
            ∧ ChatRoom.status r' = ChatRoom.ended
            ∧ ChatRoom.endedAt r' = Some now)
     ∧ jsmap_get customerId (activeCustomers st') = None
     ∧ sockets st' !! sid = None)
  ∧ (jsmap_get customerId (activeCustomers st) = None →
     (handle st (Disconnect sid now)).2 = []
     ∧ chatRooms (db st') = chatRooms (db st)
     ∧ activeCustomers st' = activeCustomers st
     ∧ (Socket.prop (Socket.workerId sk) = None →
        st' = with_sockets (delete sid (sockets st)) st)).
Proof.
  intros Hsk Hcid Hrid st'. subst st'.
  cbn [handle]. unfold on_socket. rewrite Hsk. unfold on_disconnect.
  set (st0 := with_sockets (delete sid (sockets st)) st).
  set (st1 := worker_left sk now st0).
  assert (Hac : activeCustomers st1 = activeCustomers st)
    by (subst st1; by rewrite worker_left_activeCustomers).
  assert (Hso : sockets st1 = delete sid (sockets st))
    by (subst st1; by rewrite worker_left_sockets).
  assert (Hrs : chatRooms (db st1) = chatRooms (db st))
    by (subst st1; by rewrite worker_left_chatRooms).
  unfold customer_left. rewrite Hcid, Hrid, Hac. split.
  2: { intros Hnone. rewrite Hnone. cbn [fst snd].
       split; [done|]. split; [done|]. split; [done|].
       intros Hw. subst st1 st0. unfold worker_left. by rewrite Hw. }
  intros customer Hcust. rewrite Hcust. set (workerId := Customer.workerId customer).
  cbn [fst snd db with_db with_activeCustomers activeCustomers sockets].
  split; [done|]. split; [|split; [|split; [|split]]].
  - intros sid' sk' Hne Hsk' Hroom. unfold receives.
    cbn [sockets with_db with_activeCustomers].
    rewrite Hso, lookup_delete_ne, Hsk' by done.
    by apply bool_decide_eq_true_2.
  - intros Hw.
    assert (Hw1 : is_Some (findById workerId (db st1))).
    { subst st1. by apply worker_left_findById. }
    destruct Hw1 as [w1 Hw1].
    unfold ChatRoomHelpers.end_ at 1. unfold findById at 1.
    cbn [workers with_chatRooms]. fold (findById workerId
      (WorkerHelpers.updateStatus workerId Worker.available (given None) now (db st1))).
    rewrite findById_updateStatus_same, Hw1. cbn [fmap option_fmap option_map].
    eexists. split; [done|].
    by rewrite updateData_status, updateData_currentCustomer.
  - intros r Hr. rewrite findOne_room_end_.
    unfold WorkerHelpers.updateStatus. cbn [chatRooms with_workers].
    rewrite Hrs, Hr. cbn [fmap option_fmap option_map]. eexists. done.
  - rewrite Hac. apply jsmap_get_delete.
  - rewrite Hso. apply lookup_delete_eq.
Qed.

Lemma customer_drop_releases_worker_witness :
  let st' := (handle chatting (Disconnect "c1" 40)).1 in
  let customer := Customer.mk "customer_10_abc" "room_customer_10_abc_w1" "w1" "alice" 14 in
  jsmap_get "customer_10_abc" (activeCustomers chatting) = Some customer
  ∧ (handle chatting (Disconnect "c1" 40)).2
    = [emit (to_room (worker_room "w1")) (customer_disconnected "customer_10_abc")]
  ∧ (∀ sid' sk', sid' ≠ "c1" → sockets chatting !! sid' = Some sk' →
       worker_room "w1" ∈ Socket.rooms sk' →
       receives st' sid' (to_room (worker_room "w1")) = true)
  ∧ (is_Some (findById "w1" (db chatting)) →
       ∃ w', findById "w1" (db st') = Some w'
         ∧ Worker.status w' = Worker.available
         ∧ Worker.currentCustomer w' = None)
  ∧ (∀ r, findOne (λ r, bool_decide (ChatRoom.roomId r = "room_customer_10_abc_w1"))
            (chatRooms (db chatting)) = Some r →
       ∃ r', findOne (λ r, bool_decide (ChatRoom.roomId r = "room_customer_10_abc_w1"))
               (chatRooms (db st')) = Some r'
         ∧ ChatRoom.status r' = ChatRoom.ended
         ∧ ChatRoom.endedAt r' = Some 40)
  ∧ jsmap_get "customer_10_abc" (activeCustomers st') = None
  ∧ sockets st' !! "c1" = None.
Proof.
  intros st' customer.
  assert (Hcustomer : jsmap_get "customer_10_abc" (activeCustomers chatting) = Some customer)
    by (vm_compute; reflexivity).
  split; [exact Hcustomer|].
  refine (proj1 (customer_drop_releases_worker "c1" "customer_10_abc"
                   "room_customer_10_abc_w1" 40 chatting
                   (Socket.mk None (Some "customer_10_abc") (Some "room_customer_10_abc_w1")
                      ({[ "room_customer_10_abc_w1" ]} ∪ {[ "c1" ]})) _ _ _)
            customer Hcustomer).
  - vm_compute. reflexivity.
  - reflexivity.
  - reflexivity.
Defined.

(** ** Delivery status and identity of messages *)

Lemma admitCustomer_messages now random resumed st :
  messages (db (admitCustomer now random resumed st).1) = messages (db st).
Proof.
  destruct (findAvailableWorker (db st)) as [w|] eqn:Hw.
  - rewrite (admitCustomer_found now random resumed st w Hw).
    unfold ChatRoomHelpers.create, saveCustomerSession.
    destruct (insertUnique ChatRoom.roomId _ _) as [rs|]; cbn; [|done].
    destruct (insertUnique CustomerSession.customerId _ _) as [cs|]; done.
  - by rewrite admitCustomer_busy.
Qed.

Lemma worker_left_messages `{!ObjectIds} sk now st :
  messages (db (worker_left sk now st)) = messages (db st).
Proof.
  unfold worker_left. destruct (Socket.prop _) as [workerId|]; [|done].
  by destruct (castable workerId).
Qed.

Lemma customer_left_messages sk now st :
  messages (db (customer_left sk now st).1) = messages (db st).
Proof.
  unfold customer_left.
  destruct (Socket.prop (Socket.customerId sk)); [|done].
  destruct (Socket.prop (Socket.roomId sk)); [|done].
  by destruct (jsmap_get _ _).
Qed.

Lemma handle_messages_step `{!ObjectIds} st ev :
  messages_step (messages (db st)) ev (messages (db (handle st ev).1)).
Proof.
  destruct ev; cbn [handle]; unfold on_socket;
    try (destruct (sockets st !! sid) as [sk|]; [|by constructor]).
  - destruct (admitCustomer now random resumed st) as [st' r] eqn:Hadm.
    cbn [fst]. replace st' with (admitCustomer now random resumed st).1 by (by rewrite Hadm).
    rewrite admitCustomer_messages. constructor.
  - constructor.
  - constructor.
  - unfold on_customer_join. cbn [activeCustomers with_sockets].
    destruct (jsmap_get _ _); [|constructor].
    destruct (Socket.prop _); [|constructor].
    cbn [sockets with_sockets]. destruct (_ !! _); constructor.
  - unfold on_send_message, MessageHelpers.saveMessage.
    destruct (MessageHelpers.valid _); [|constructor].
    destruct (insertUnique Message.messageId _ _) as [ms|] eqn:Hms; [|constructor].
    apply insertUnique_Some in Hms as [Hfresh ->]. cbn. by constructor.
  - unfold on_timeout. destruct (timers st) as [|[??] ?]; constructor.
  - unfold on_typing. destruct (_ || _); constructor.
  - unfold on_typing. destruct (_ || _); constructor.
  - unfold on_message_read. destruct (_ || _); constructor.
  - constructor.
  - unfold on_end_chat. destruct (castable _); [|constructor].
    cbn. destruct (findOne _ _); constructor.
  - unfold on_disconnect. rewrite customer_left_messages, worker_left_messages.
    constructor.
Qed.


Lemma setStatus_same m :
  MessageHelpers.setStatus (Message.status m) m = m.
Proof. by destruct m. Qed.



Lemma run_cons `{!ObjectIds} st ev evs :
  (run st (ev :: evs)).1 = (run (handle st ev).1 evs).1.
Proof.
  change (run st (ev :: evs))
    with (let '(st1, out1) := handle st ev in
          let '(st2, out2) := run st1 evs in (st2, out1 ++ out2)).
  destruct (handle st ev) as [st1 out1]. cbn [fst].
  by destruct (run st1 evs).
Qed.




Lemma updateMany_keys {A K} (key : A → K) (q : A → bool) (u : A → A) (c : list A) :
  (∀ d, key (u d) = key d) →
  key <$> updateMany q u c = key <$> c.
Proof.
  intros Hu. unfold updateMany. rewrite <- list_fmap_compose.
  apply list_fmap_ext. intros i d _. cbn. by destruct (q d).
Qed.

(** Only a [send-message] that is saved adds an id, the clock reading of
    the event, and only if no stored message has it. *)
Lemma message_ids_step `{!ObjectIds} st ev :
  message_ids (handle st ev).1 = message_ids st
  ∨ ∃ sid data now, ev = SendMessage sid data now
      ∧ (now ∉ message_ids st)
      ∧ message_ids (handle st ev).1 = message_ids st ++ [now].
Proof.
  unfold message_ids.
  destruct (handle_messages_step st ev)
    as [ev|sid data now Hfresh|sid roomId mid|sid roomId mids].
  - by left.
  - right. exists sid, data, now. by rewrite fmap_app.
  - left. by apply findOneAndUpdate_keys.
  - left. by apply updateMany_keys.
Qed.

Lemma send_times_cons ev evs :
  send_times (ev :: evs)
  = match ev with
    | SendMessage _ _ now => now :: send_times evs
    | _ => send_times evs
    end.
Proof. by destruct ev. Qed.

Lemma run_message_ids_NoDup `{!ObjectIds} evs st :
  NoDup (message_ids st) → NoDup (message_ids (run st evs).1).
Proof.
  revert st. induction evs as [|ev evs IH]; intros st Hnd; [done|].
  rewrite run_cons. apply IH.
  destruct (message_ids_step st ev) as [->|(sid & data & now & _ & Hfresh & ->)]; [done|].
  apply NoDup_app. split; [done|]. split; [|apply NoDup_singleton].
  intros i Hi ->%list_elem_of_singleton. done.
Qed.

Lemma run_message_ids_from_sends `{!ObjectIds} evs st i :
  i ∈ message_ids (run st evs).1 → i ∈ message_ids st ∨ i ∈ send_times evs.
Proof.
  revert st. induction evs as [|ev evs IH]; intros st; [by left|].
  rewrite run_cons, send_times_cons. intros [Hi|Hi]%IH.
  - destruct (message_ids_step st ev) as [Heq|(sid & data & now & -> & _ & Heq)];
      rewrite Heq in Hi.
    + by left.
    + apply elem_of_app in Hi as [Hi|Hi]; [by left|].
      apply list_elem_of_singleton in Hi as ->. right. left.
  - right. destruct ev; try done. by right.
Qed.

Lemma run_message_ids_sorted `{!ObjectIds} evs st :
  StronglySorted Z.lt (message_ids st) →
  StronglySorted Z.le (send_times evs) →
  (∀ i t, i ∈ message_ids st → t ∈ send_times evs → i ≤ t) →
  StronglySorted Z.lt (message_ids (run st evs).1).
Proof.
  revert st. induction evs as [|ev evs IH]; intros st Hsorted Htimes Hbound; [done|].
  rewrite run_cons. rewrite send_times_cons in Htimes, Hbound.
  destruct (message_ids_step st ev) as [Heq|(sid & data & now & -> & Hfresh & Heq)].
  - apply IH; rewrite ?Heq; [done| |].
    + destruct ev; try done. by apply StronglySorted_cons in Htimes as [_ ?].
    + intros i t Hi Ht. apply Hbound; [done|]. destruct ev; try done. by right.
  - apply StronglySorted_cons in Htimes as [Hnow Htimes].
    apply IH; rewrite ?Heq; [|done|].
    + apply StronglySorted_app. split; [|split; [done|]].
      * intros i t Hi Ht. apply list_elem_of_singleton in Ht as ->.
        assert (i ≤ now) by (apply Hbound; [done|left]).
        assert (i ≠ now) by congruence. lia.
      * repeat constructor.
    + intros i t [Hi|Hi]%elem_of_app Ht.
      * apply Hbound; [done|by right].
      * apply list_elem_of_singleton in Hi as ->.
        by apply (proj1 (Forall_forall _ _) Hnow).
Qed.

(** C5 as stated fails: two submissions in one session at the same clock
    reading are given the same id; the second one is then refused by the
    store and reported to its sender as an error. *)
Lemma same_millisecond_same_id :
  md_id (messageData_of hi 20) = md_id (messageData_of hello 20)
  ∧ ¬ (md_id (messageData_of hi 20) < md_id (messageData_of hello 20))
  ∧ (run chatting [SendMessage "c1" hi 20; SendMessage "s1" hello 20]).2
    = [emit (to_room "room_customer_10_abc_w1") (new_message (messageData_of hi 20));
       emit (to_socket "s1") message_error].
Proof.
  split; [reflexivity|]. split; [cbn; lia|]. vm_compute. reflexivity.
Qed.

(** C5, amended: the id given to a submitted message is the clock reading
    of its [send-message] event.  The ids of the stored messages are
    pairwise distinct (a submission whose id is taken is refused), each is
    the clock reading of a [send-message] of the run, and as long as the
    clock readings of successive [send-message] events do not decrease the
    stored ids strictly increase in the order in which the messages were
    saved. *)
Theorem stored_ids_distinct_and_ordered `{!ObjectIds}
    (ws : list Worker.t) (evs : list Event) :
  let st := (run (boot ws) evs).1 in
  (∀ data now, md_id (messageData_of data now) = now)
  ∧ NoDup (message_ids st)
  ∧ (∀ i, i ∈ message_ids st → i ∈ send_times evs)
  ∧ (StronglySorted Z.le (send_times evs) → StronglySorted Z.lt (message_ids st)).
Proof.
  cbv zeta. split; [done|]. split; [|split].
  - apply run_message_ids_NoDup. constructor.
  - intros i [Hi|Hi]%run_message_ids_from_sends; [|done].
    by apply elem_of_nil in Hi.
  - intros Htimes. apply run_message_ids_sorted; [constructor|done|].
    by intros i t Hi%elem_of_nil.
Qed.

Lemma stored_ids_distinct_and_ordered_witness :
  let evs := [Connection "c1"; SendMessage "c1" hi 20; SendMessage "c1" hello 20;
              SendMessage "c1" hello 25] in
  message_ids (run (boot [alice]) evs).1 = [20; 25]
  ∧ StronglySorted Z.lt (message_ids (run (boot [alice]) evs).1).
Proof.
  split; [vm_compute; reflexivity|].
  apply (stored_ids_distinct_and_ordered [alice]
           [Connection "c1"; SendMessage "c1" hi 20; SendMessage "c1" hello 20;
            SendMessage "c1" hello 25]).
  repeat constructor; lia.
Defined.

(** ** Two admissions at the same time *)

Lemma no_available_after_reservation (d : Store) (w : Worker.t)
    (cc : Arg string) (now : Z) :
  NoDup (Worker._id <$> workers d) →
  filter (λ w, Worker.status w = Worker.available) (workers d) = [w] →
  ∀ w', w' ∈ workers (WorkerHelpers.updateStatus (Worker._id w) Worker.busy cc now d) →
        Worker.status w' ≠ Worker.available.
Proof.
  intros Hnd Hone w'. unfold WorkerHelpers.updateStatus. cbn [workers with_workers].
  rewrite (findOneAndUpdate_unique Worker._id) by done.
  unfold updateMany. intros (x & -> & Hx)%list_elem_of_fmap.
  case_bool_decide as Hid.
  - by rewrite updateData_status.
  - intros Hav.
    assert (Hin : x ∈ filter (λ w, Worker.status w = Worker.available) (workers d))
      by (by apply list_elem_of_filter).
    rewrite Hone in Hin. apply list_elem_of_singleton in Hin as ->. done.
Qed.

Lemma join_step_reserved now st j :
  reserved j →
  reserved (join_step now st j).2
  ∧ workers (db (join_step now st j).1) = workers (db st).
Proof.
  destruct j as [cid|cid w|cid w|cid w|r]; cbn [reserved]; try done; intros _.
  - cbn [join_step]. unfold ChatRoomHelpers.create.
    by destruct (insertUnique ChatRoom.roomId _ _).
  - cbn [join_step]. unfold saveCustomerSession.
    by destruct (insertUnique CustomerSession.customerId _ _).
Qed.

Lemma join_step_waiting now st customerId j :
  (∀ w, w ∈ workers (db st) → Worker.status w ≠ Worker.available) →
  waiting_or_busy customerId j →
  join_step now st j = (st, replied (busy_for customerId)).
Proof.
  intros Hnone%findAvailableWorker_None [-> | ->]; cbn [join_step]; [|done].
  by rewrite Hnone.
Qed.

(** A request that has its response takes no further step. *)
Lemma interleave_replied (rest : list (bool * Z)) (r : JoinResponse) :
  ∀ st a, (interleave rest st a (replied r)).2 = replied r.
Proof.
  induction rest as [|[who now] rest IH]; intros st a; [done|].
  destruct who; cbn [interleave join_step]; [|apply IH].
  destruct (join_step now st a). apply IH.
Qed.

(** Once no worker is available and the first request has reserved, the
    second request can only be told [busy], however the remaining steps
    are ordered. *)
Lemma interleave_after_reservation (rest : list (bool * Z)) :
  ∀ st a b customerId,
    (∀ w, w ∈ workers (db st) → Worker.status w ≠ Worker.available) →
    reserved a → waiting_or_busy customerId b →
    waiting_or_busy customerId (interleave rest st a b).2
    ∧ (false ∈ rest.*1 → (interleave rest st a b).2 = replied (busy_for customerId)).
Proof.
  induction rest as [|[who now] rest IH]; intros st a b customerId Hnone Ha Hb.
  - split; [done|]. by intros ?%elem_of_nil.
  - destruct who; cbn [interleave].
    + destruct (join_step_reserved now st a Ha) as [Ha' Hws].
      destruct (join_step now st a) as [st' a']. cbn [fst snd] in *.
      destruct (IH st' a' b customerId) as [Hw Hb']; [by rewrite Hws|done|done|].
      split; [done|]. rewrite fmap_cons. cbn [fst].
      intros [?|?]%elem_of_cons; [done|by apply Hb'].
    + rewrite (join_step_waiting now st customerId b Hnone Hb).
      rewrite interleave_replied. split; [by right|done].
Qed.

(** C1 as stated fails: with one available worker, two admissions whose
    steps alternate are both answered [connected], with the same worker,
    who ends up referenced by two active rooms. *)
Lemma concurrent_admissions_share_the_worker :
  filter (λ w, Worker.status w = Worker.available) (workers (db one_available))
  = [Worker.mk "w1" "alice" Worker.available None 0 5]
  ∧ let '(st', a, b) := interleave alternating one_available
                          (await_find "customer_10_abc") (await_find "customer_10_xyz") in
    a = replied (connected "customer_10_abc" "room_customer_10_abc_w1" "w1" "alice")
    ∧ b = replied (connected "customer_10_xyz" "room_customer_10_xyz_w1" "w1" "alice")
    ∧ length (filter (λ r, ChatRoom.status r = ChatRoom.active ∧ ChatRoom.workerId r = "w1")
                (chatRooms (db st'))) = 2%nat.
Proof. split; vm_compute; [reflexivity|]. repeat split; reflexivity. Qed.

(** C1, amended: selection and reservation are two steps of the route.
    For two admissions against a pool with exactly one available worker,
    if the selection and the reservation of one request both come before
    the selection of the other, the other request is never connected:
    whatever the order of the remaining steps, it has either not selected
    yet or was told [busy], and it is told [busy] as soon as it takes a
    step.  In particular, of two admissions handled one after the other
    the first is not told [busy] and the second is. *)
Theorem reservation_before_selection_excludes (st : State) (w : Worker.t)
    (customerA customerB : string) (t1 t2 : Z) (rest : list (bool * Z)) :
  NoDup (Worker._id <$> workers (db st)) →
  filter (λ w, Worker.status w = Worker.available) (workers (db st)) = [w] →
  let b' := (interleave ((true, t1) :: (true, t2) :: rest) st
               (await_find customerA) (await_find customerB)).2 in
  waiting_or_busy customerB b'
  ∧ (false ∈ rest.*1 → b' = replied (busy_for customerB))
  ∧ (∀ cid rid wid wname, b' ≠ replied (connected cid rid wid wname))
  ∧ (∀ nowA randomA resumedA nowB randomB resumedB,
       (∀ cid text, (admitCustomer nowA randomA resumedA st).2 ≠ busy cid text)
       ∧ (admitCustomer nowB randomB resumedB (admitCustomer nowA randomA resumedA st).1).2
         = busy_for (new_customerId nowB randomB)).
Proof.
  intros Hnd Hone b'. subst b'.
  assert (Hfind : findAvailableWorker (db st) = Some w).
  { unfold findAvailableWorker, WorkerHelpers.findAvailable. by rewrite Hone. }
  assert (Hres : waiting_or_busy customerB
            (interleave ((true, t1) :: (true, t2) :: rest) st
               (await_find customerA) (await_find customerB)).2
          ∧ (false ∈ rest.*1 →
             (interleave ((true, t1) :: (true, t2) :: rest) st
                (await_find customerA) (await_find customerB)).2
             = replied (busy_for customerB))).
  { cbn [interleave join_step]. rewrite Hfind. cbn [interleave join_step].
    apply interleave_after_reservation; [|done|by left].
    cbn [db with_db]. by apply no_available_after_reservation. }
  destruct Hres as [Hw Hb].
  split; [done|]. split; [done|]. split.
  - intros cid rid wid wname Heq. rewrite Heq in Hw. by destruct Hw.
  - intros nowA randomA resumedA nowB randomB resumedB.
    pose proof (admitCustomer_workers nowA randomA resumedA st w Hfind) as Hws.
    split.
    + intros cid text. rewrite (admitCustomer_found nowA randomA resumedA st w Hfind).
      destruct (ChatRoomHelpers.create _ _ _ _ _); [|done].
      by destruct (saveCustomerSession _ _ _ _ _).
    + rewrite admitCustomer_busy; [done|].
      apply findAvailableWorker_None. rewrite Hws.
      by apply no_available_after_reservation.
Qed.

Lemma reservation_before_selection_excludes_witness :
  let b' := (interleave [(true, 10); (true, 11); (false, 11); (true, 12); (true, 13)]
               one_available (await_find "customer_10_abc")
               (await_find "customer_11_xyz")).2 in
  waiting_or_busy "customer_11_xyz" b'
  ∧ (false ∈ [(false, 11); (true, 12); (true, 13)].*1 →
     b' = replied (busy_for "customer_11_xyz"))
  ∧ (∀ cid rid wid wname, b' ≠ replied (connected cid rid wid wname))
  ∧ (∀ nowA randomA resumedA nowB randomB resumedB,
       (∀ cid text, (admitCustomer nowA randomA resumedA one_available).2 ≠ busy cid text)
       ∧ (admitCustomer nowB randomB resumedB (admitCustomer nowA randomA resumedA one_available).1).2
         = busy_for (new_customerId nowB randomB)).
Proof.
  apply (reservation_before_selection_excludes one_available
           (Worker.mk "w1" "alice" Worker.available None 0 5)
           "customer_10_abc" "customer_11_xyz" 10 11
           [(false, 11); (true, 12); (true, 13)]).
  - vm_compute. apply NoDup_cons_2; [|apply NoDup_singleton].
    intros Hin%list_elem_of_singleton. discriminate Hin.
  - vm_compute. reflexivity.
Defined.

(** ** Consistency of workers and sessions *)

Lemma unique_key {A K} (key : A → K) (l : list A) (x y : A) :
  NoDup (key <$> l) → x ∈ l → y ∈ l → key x = key y → x = y.
Proof.
  induction l as [|a l IH]; [by intros _ ?%elem_of_nil|].
  rewrite fmap_cons. intros [Ha Hnd]%NoDup_cons.
  intros [->|Hx]%elem_of_cons [->|Hy]%elem_of_cons Hk; [done| | |by apply IH].
  - destruct Ha. rewrite Hk. by apply list_elem_of_fmap_2.
  - destruct Ha. rewrite <- Hk. by apply list_elem_of_fmap_2.
Qed.

Lemma findOneAndUpdate_elem {A} (q : A → bool) (u : A → A) (c : list A) (d' : A) :
  d' ∈ findOneAndUpdate q u c →
  d' ∈ c ∨ ∃ d, d ∈ c ∧ q d = true ∧ d' = u d.
Proof.
  induction c as [|x c IH]; [by intros ?%elem_of_nil|].
  cbn [findOneAndUpdate]. destruct (q x) eqn:Hq.
  - intros [->|Hd]%elem_of_cons.
    + right. exists x. split; [left|done].
    + left. by right.
  - intros [->|Hd]%elem_of_cons; [left; left|].
    destruct (IH Hd) as [?|(d & ? & ? & ?)]; [left; by right|].
    right. exists d. split; [by right|done].
Qed.
















(** The store of a process that starts with workers who are all offline
    is consistent. *)
Lemma boot_consistent ws :
  NoDup (Worker._id <$> ws) →
  Forall (λ w, Worker.status w = Worker.offline) ws →
  consistent (db (boot ws)).
Proof.
  intros Hnd Hoff. unfold consistent, active_sessions. cbn.
  split; [done|]. split; [constructor|]. split; [|constructor].
  eapply Forall_impl; [exact Hoff|]. intros w ->. done.
Qed.




(** * Further properties of the handlers *)

(** ** What an admission leaves behind *)

Lemma findById_ext workerId d d' :
  workers d = workers d' → findById workerId d = findById workerId d'.
Proof. unfold findById. by intros ->. Qed.




(** X2: with an available worker the route answers with a server error
    exactly when the store refuses the room (its id is taken) or the
    customer session (the customer id is taken).  The reservation is not
    undone then: the selected worker stays busy with the rejected
    customer (with the clock reading taken when the worker was found as
    [lastActive]), and [activeCustomers] is as it was. *)
Theorem refused_admission_keeps_reservation (now : Z) (random : string)
    (resumed : Resumed) (st : State) (w : Worker.t) :
  findAvailableWorker (db st) = Some w →
  let cid := new_customerId now random in
  let st' := (admitCustomer now random resumed st).1 in
  ((admitCustomer now random resumed st).2 = server_error
   ↔ room_of cid w ∈ (ChatRoom.roomId <$> chatRooms (db st))
     ∨ cid ∈ (CustomerSession.customerId <$> customerSessions (db st)))
  ∧ ((admitCustomer now random resumed st).2 = server_error →
     workers (db st')
     = workers (WorkerHelpers.updateStatus (Worker._id w) Worker.busy
                  (given (Some cid)) (after_find resumed) (db st))
     ∧ (∀ w0, findById (Worker._id w) (db st) = Some w0 →
          ∃ w', findById (Worker._id w) (db st') = Some w'
            ∧ Worker.status w' = Worker.busy
            ∧ Worker.currentCustomer w' = Some cid)
     ∧ activeCustomers st' = activeCustomers st
     ∧ customerSessions (db st') = customerSessions (db st)
     ∧ (room_of cid w ∈ (ChatRoom.roomId <$> chatRooms (db st)) →
        chatRooms (db st') = chatRooms (db st))).
Proof.
  intros Hw cid st'. subst st'.
  assert (Hres : ∀ d',
    workers d' = workers (WorkerHelpers.updateStatus (Worker._id w) Worker.busy
                            (given (Some cid)) (after_find resumed) (db st)) →
    ∀ w0, findById (Worker._id w) (db st) = Some w0 →
      ∃ w', findById (Worker._id w) d' = Some w'
        ∧ Worker.status w' = Worker.busy ∧ Worker.currentCustomer w' = Some cid).
  { intros d' Hd' w0 Hw0. rewrite (findById_ext _ _ _ Hd').
    rewrite findById_updateStatus_same, Hw0. cbn [fmap option_fmap option_map].
    eexists. split; [done|]. by rewrite updateData_status, updateData_currentCustomer. }
  rewrite (admitCustomer_found now random resumed st w Hw). fold cid.
  unfold ChatRoomHelpers.create, saveCustomerSession.
  cbn [chatRooms WorkerHelpers.updateStatus with_workers].
  destruct (insertUnique ChatRoom.roomId _ (chatRooms (db st))) as [rs|] eqn:Hrs;
    cbn [mbind option_bind customerSessions with_chatRooms].
  - apply insertUnique_Some in Hrs as [Hroom ->].
    destruct (insertUnique CustomerSession.customerId _ _) as [cs|] eqn:Hcs;
      cbn [mbind option_bind fst snd].
    + apply insertUnique_Some in Hcs as [Hsess ->]. cbn in Hroom, Hsess.
      split; [|done]. split; [done|]. by intros [?|?].
    + apply insertUnique_None in Hcs. cbn in Hcs, Hroom.
      split; [split; [by right|done]|]. intros _.
      split; [done|]. split; [by apply Hres|]. done.
  - apply insertUnique_None in Hrs. cbn in Hrs.
    split; [split; [by left|done]|]. intros _.
    split; [done|]. split; [by apply Hres|]. done.
Qed.

Lemma refused_admission_keeps_reservation_witness :
  readmitted.2 = server_error
  ∧ (Worker.status <$> findById "w1" (db readmitted.1)) = Some Worker.busy
  ∧ chatRooms (db readmitted.1) = chatRooms (db closed).
Proof.
  assert (Hw : findAvailableWorker (db closed)
               = Some (Worker.mk "w1" "alice" Worker.available None 0 30))
    by (vm_compute; reflexivity).
  destruct (refused_admission_keeps_reservation 10 "abc" (soon 10) closed _ Hw)
    as [Hiff Hkeep].
  assert (Herr : (admitCustomer 10 "abc" (soon 10) closed).2 = server_error).
  { apply Hiff. left. vm_compute. left. }
  split; [exact Herr|]. split; [vm_compute; reflexivity|].
  apply (Hkeep Herr). vm_compute. left.
Defined.

(** ** What the events do to the workers *)

Lemma updateData_undefined s now w :
  WorkerHelpers.updateData s undefined now w = WorkerHelpers.updateData s (given None) now w.
Proof. done. Qed.

Lemma workers_updateStatus_given workerId s v now d :
  workers (WorkerHelpers.updateStatus workerId s (given v) now d)
  = apply_update (workers d) (mkStatusUpdate workerId s v now).
Proof. done. Qed.

Lemma workers_updateStatus_undefined workerId s now d :
  workers (WorkerHelpers.updateStatus workerId s undefined now d)
  = apply_update (workers d) (mkStatusUpdate workerId s None now).
Proof. done. Qed.

Lemma truthy_new_customerId now random : truthy (new_customerId now random) = true.
Proof. done. Qed.

Lemma assigns_release s : s ≠ Worker.busy → assigns_iff_busy s None.
Proof. intros Hs. split; [done|]. by intros (cid & ? & _). Qed.

(** Every event changes the workers by a sequence of status updates, each
    of which assigns a customer exactly when it sets [busy]. *)
Lemma handle_workers `{!ObjectIds} st ev :
  ∃ ups, workers (db (handle st ev).1) = foldl apply_update (workers (db st)) ups
    ∧ Forall (λ u, assigns_iff_busy (up_status u) (up_customer u)) ups.
Proof.
  destruct ev; cbn [handle]; unfold on_socket;
    try (destruct (sockets st !! sid) as [sk|]; [|by exists []]).
  - destruct (findAvailableWorker (db st)) as [w|] eqn:Hw.
    + exists [mkStatusUpdate (Worker._id w) Worker.busy (Some (new_customerId now random))
                (after_find resumed)].
      split.
      * destruct (admitCustomer now random resumed st) as [st' r] eqn:Hadm. cbn [fst].
        replace st' with (admitCustomer now random resumed st).1 by (by rewrite Hadm).
        by rewrite (admitCustomer_workers now random resumed st w Hw).
      * apply Forall_singleton. split; [|done]. intros _. by eexists.
    + exists []. by rewrite admitCustomer_busy.
  - by exists [].
  - exists [mkStatusUpdate workerId Worker.available None now]. split; [done|].
    apply Forall_singleton. by apply assigns_release.
  - exists []. split; [|done]. unfold on_customer_join. cbn [activeCustomers with_sockets].
    destruct (jsmap_get _ _); [|done].
    destruct (Socket.prop _); [|done].
    cbn [sockets with_sockets]. by destruct (_ !! _).
  - exists []. split; [|done]. unfold on_send_message, MessageHelpers.saveMessage.
    destruct (MessageHelpers.valid _); [|done].
    by destruct (insertUnique Message.messageId _ _).
  - exists []. split; [|done]. unfold on_timeout. by destruct (timers st) as [|[??] ?].
  - exists []. split; [|done]. unfold on_typing. by destruct (_ || _).
  - exists []. split; [|done]. unfold on_typing. by destruct (_ || _).
  - exists []. split; [|done]. unfold on_message_read. by destruct (_ || _).
  - by exists [].
  - unfold on_end_chat. destruct (castable workerId); [|by exists []].
    exists [mkStatusUpdate workerId Worker.available None now]. split.
    + cbn. by destruct (findOne _ _).
    + apply Forall_singleton. by apply assigns_release.
  - unfold on_disconnect, worker_left, customer_left.
    set (offline_of := λ wid, mkStatusUpdate wid Worker.offline None now).
    set (available_of := λ c, mkStatusUpdate (Customer.workerId c) Worker.available None now).
    assert (Hoff : ∀ wid, assigns_iff_busy (up_status (offline_of wid)) (up_customer (offline_of wid)))
      by (intros; by apply assigns_release).
    assert (Hav : ∀ c, assigns_iff_busy (up_status (available_of c)) (up_customer (available_of c)))
      by (intros; by apply assigns_release).
    destruct (Socket.prop (Socket.workerId sk)) as [wid|];
      [destruct (castable wid)|];
      cbn [activeCustomers with_db with_workerSockets with_sockets];
      (destruct (Socket.prop (Socket.customerId sk)) as [cid|];
       [destruct (Socket.prop (Socket.roomId sk)) as [rid|];
        [destruct (jsmap_get cid (activeCustomers st)) as [c|]|]|]).
    all: first
      [ by (exists [offline_of wid; available_of c]; split; [done|];
            repeat (apply Forall_cons_2; [auto|]))
      | by (exists [offline_of wid]; split; [done|];
            repeat (apply Forall_cons_2; [auto|]))
      | by (exists [available_of c]; split; [done|];
            repeat (apply Forall_cons_2; [auto|]))
      | by exists [] ].
Qed.

Lemma apply_update_identity ws u :
  identity <$> apply_update ws u = identity <$> ws.
Proof.
  apply findOneAndUpdate_keys. intros w. unfold identity.
  by rewrite updateData_id, updateData_username; destruct w.
Qed.

Lemma apply_update_assigned ws u :
  assigns_iff_busy (up_status u) (up_customer u) →
  Forall (λ w, assigns_iff_busy (Worker.status w) (Worker.currentCustomer w)) ws →
  Forall (λ w, assigns_iff_busy (Worker.status w) (Worker.currentCustomer w))
    (apply_update ws u).
Proof.
  intros Hu Hws. apply Forall_forall.
  intros w' [Hw'|(w & Hw & _ & ->)]%findOneAndUpdate_elem.
  - by apply (proj1 (Forall_forall _ _) Hws).
  - by rewrite updateData_status, updateData_currentCustomer.
Qed.

Lemma updates_identity ups ws :
  identity <$> foldl apply_update ws ups = identity <$> ws.
Proof.
  revert ws. induction ups as [|u ups IH]; intros ws; [done|].
  cbn [foldl]. by rewrite IH, apply_update_identity.
Qed.

Lemma updates_assigned ups ws :
  Forall (λ u, assigns_iff_busy (up_status u) (up_customer u)) ups →
  Forall (λ w, assigns_iff_busy (Worker.status w) (Worker.currentCustomer w)) ws →
  Forall (λ w, assigns_iff_busy (Worker.status w) (Worker.currentCustomer w))
    (foldl apply_update ws ups).
Proof.
  intros Hups. revert ws. induction Hups as [|u ups Hu Hups IH]; intros ws Hws; [done|].
  cbn [foldl]. apply IH. by apply apply_update_assigned.
Qed.

(** X3: no event of the broker adds, removes, reorders or renames a
    worker: over every run the workers keep their ids, user names and
    creation times. *)
Theorem events_keep_the_workers `{!ObjectIds} (st : State) (evs : list Event) :
  identity <$> workers (db (run st evs).1) = identity <$> workers (db st).
Proof.
  revert st. induction evs as [|ev evs IH]; intros st; [done|].
  rewrite run_cons, IH. destruct (handle_workers st ev) as (ups & Heq & _).
  rewrite Heq. apply updates_identity.
Qed.

(** X4: a worker has an assigned customer exactly when it is busy, and
    every event keeps it so, also the events that break other invariants
    (a busy worker joining again, the loss of a worker's socket). *)
Theorem busy_means_assigned `{!ObjectIds} (st : State) (evs : list Event) :
  assigned_iff_busy (db st) → assigned_iff_busy (db (run st evs).1).
Proof.
  revert st. induction evs as [|ev evs IH]; intros st Hst; [done|].
  rewrite run_cons. apply IH. unfold assigned_iff_busy in *.
  destruct (handle_workers st ev) as (ups & Heq & Hups).
  rewrite Heq. by apply updates_assigned.
Qed.

Lemma busy_means_assigned_witness :
  assigned_iff_busy
    (db (run (boot [alice; bob])
           [Connection "s1"; WorkerJoin "s1" "w1" 5; PostCustomerJoin 10 "abc" (soon 10);
            WorkerJoin "s1" "w1" 20; PostCustomerJoin 30 "xyz" (soon 30); Disconnect "s1" 40]).1).
Proof.
  apply (busy_means_assigned (boot [alice; bob])).
  repeat constructor; try done; by intros (cid & ? & _).
Defined.

(** ** Rooms and messages are kept *)

Lemma findOneAndUpdate_lookup {A} (q : A → bool) (u : A → A) (c : list A) (i : nat) (d : A) :
  c !! i = Some d →
  findOneAndUpdate q u c !! i = Some d ∨ findOneAndUpdate q u c !! i = Some (u d).
Proof.
  revert i. induction c as [|x c IH]; intros i; [done|].
  cbn [findOneAndUpdate]. destruct (q x).
  - destruct i as [|i]; cbn; [intros [= ->]; by right|by left].
  - destruct i as [|i]; cbn; [by left|apply IH].
Qed.

Lemma customer_left_rooms_step sk now st :
  rooms_step (chatRooms (db st)) (chatRooms (db (customer_left sk now st).1)).
Proof.
  unfold customer_left.
  destruct (Socket.prop (Socket.customerId sk)); [|constructor].
  destruct (Socket.prop (Socket.roomId sk)); [|constructor].
  destruct (jsmap_get _ _); [|constructor].
  cbn [fst db with_db with_activeCustomers].
  unfold ChatRoomHelpers.end_, WorkerHelpers.updateStatus.
  cbn [chatRooms with_chatRooms with_workers]. constructor.
Qed.

Lemma handle_rooms_step `{!ObjectIds} st ev :
  rooms_step (chatRooms (db st)) (chatRooms (db (handle st ev).1)).
Proof.
  destruct ev; cbn [handle]; unfold on_socket;
    try (destruct (sockets st !! sid) as [sk|]; [|by constructor]).
  - destruct (findAvailableWorker (db st)) as [w|] eqn:Hw.
    + destruct (admitCustomer now random resumed st) as [st' r] eqn:Hadm. cbn [fst].
      replace st' with (admitCustomer now random resumed st).1 by (by rewrite Hadm).
      rewrite (admitCustomer_found now random resumed st w Hw).
      unfold ChatRoomHelpers.create, saveCustomerSession.
      cbn [chatRooms WorkerHelpers.updateStatus with_workers].
      destruct (insertUnique ChatRoom.roomId _ _) as [rs|] eqn:Hrs;
        cbn [mbind option_bind]; [|constructor].
      apply insertUnique_Some in Hrs as [Hfresh ->].
      destruct (insertUnique CustomerSession.customerId _ _); cbn; by constructor.
    + rewrite admitCustomer_busy by done. constructor.
  - constructor.
  - constructor.
  - unfold on_customer_join. cbn [activeCustomers with_sockets].
    destruct (jsmap_get _ _); [|constructor].
    destruct (Socket.prop _); [|constructor].
    cbn [sockets with_sockets]. destruct (_ !! _); constructor.
  - unfold on_send_message, MessageHelpers.saveMessage.
    destruct (MessageHelpers.valid _); [|constructor].
    destruct (insertUnique Message.messageId _ _); constructor.
  - unfold on_timeout. destruct (timers st) as [|[??] ?]; constructor.
  - unfold on_typing. destruct (_ || _); constructor.
  - unfold on_typing. destruct (_ || _); constructor.
  - unfold on_message_read. destruct (_ || _); constructor.
  - constructor.
  - unfold on_end_chat. destruct (castable workerId); [|constructor]. cbn [db with_db].
    assert (Hstep : rooms_step (chatRooms (db st))
              (chatRooms (ChatRoomHelpers.end_ roomId now
                 (WorkerHelpers.updateStatus workerId Worker.available (given None)
                    now (db st))))) by constructor.
    by destruct (findOne _ _).
  - unfold on_disconnect.
    pose proof (customer_left_rooms_step sk now
                  (worker_left sk now (with_sockets (delete sid (sockets st)) st))) as Hstep.
    by rewrite worker_left_chatRooms in Hstep.
Qed.

Lemma later_room_refl r : later_room r r.
Proof. unfold later_room. by repeat split; try left. Qed.

Lemma later_room_trans r1 r2 r3 : later_room r1 r2 → later_room r2 r3 → later_room r1 r3.
Proof.
  unfold later_room. intros (?&?&?&?&?&?&H12) (?&?&?&?&?&?&H23).
  repeat split; try congruence.
  destruct H23 as [H23|H23]; [|by right]. rewrite H23. done.
Qed.

Lemma later_room_close now r : later_room r (ChatRoomHelpers.close now r).
Proof. unfold later_room. repeat split; by right. Qed.

(** X5: no event removes or replaces a chat room, and a room that is not
    active never becomes active again: over every run a stored room stays
    at its place with the same room id, customer, worker, creation time
    and message count (the count is never updated), and its status is
    what it was or [ended]. *)
Theorem rooms_are_kept `{!ObjectIds}
    (st : State) (evs : list Event) (i : nat) (r : ChatRoom.t) :
  chatRooms (db st) !! i = Some r →
  ∃ r', chatRooms (db (run st evs).1) !! i = Some r' ∧ later_room r r'.
Proof.
  revert st r. induction evs as [|ev evs IH]; intros st r Hr.
  - exists r. split; [done|apply later_room_refl].
  - rewrite run_cons.
    assert (Hstep : ∃ r1, chatRooms (db (handle st ev).1) !! i = Some r1 ∧ later_room r r1).
    { destruct (handle_rooms_step st ev) as [|roomId customerId w now Hfresh|roomId now].
      - exists r. split; [done|apply later_room_refl].
      - exists r. split; [by apply lookup_app_l_Some|apply later_room_refl].
      - destruct (findOneAndUpdate_lookup
                    (λ r, bool_decide (ChatRoom.roomId r = roomId))
                    (ChatRoomHelpers.close now) _ i r Hr) as [Hi|Hi].
        + exists r. split; [done|apply later_room_refl].
        + eexists. split; [done|apply later_room_close]. }
    destruct Hstep as (r1 & Hr1 & H1).
    destruct (IH _ r1 Hr1) as (r' & Hr' & H').
    exists r'. split; [done|]. by eapply later_room_trans.
Qed.

Lemma rooms_are_kept_witness :
  ∃ r', chatRooms (db (run chatting
                         [EndChat "s1" "room_customer_10_abc_w1" "w1" 30;
                          PostCustomerJoin 40 "xyz" (soon 40); Disconnect "c1" 50]).1) !! 0%nat
        = Some r'
    ∧ later_room (ChatRoom.mk "room_customer_10_abc_w1" "customer_10_abc" "w1" "alice"
                    ChatRoom.active 12 None 0) r'.
Proof.
  apply (rooms_are_kept chatting). vm_compute. reflexivity.
Defined.

(** X6: no event deletes or rewrites a message: over every run a stored
    message stays at its place and keeps its id, room, text, sender, type,
    attachment and time; only its status can differ. *)
Theorem messages_are_kept `{!ObjectIds}
    (st : State) (evs : list Event) (i : nat) (m : Message.t) :
  messages (db st) !! i = Some m →
  ∃ s, messages (db (run st evs).1) !! i = Some (MessageHelpers.setStatus s m).
Proof.
  revert st m. induction evs as [|ev evs IH]; intros st m Hm.
  - exists (Message.status m). by rewrite setStatus_same.
  - rewrite run_cons.
    assert (Hstep : ∃ s, messages (db (handle st ev).1) !! i
                         = Some (MessageHelpers.setStatus s m)).
    { destruct (handle_messages_step st ev)
        as [ev|sid data now Hfresh|sid roomId mid|sid roomId mids].
      - exists (Message.status m). by rewrite setStatus_same.
      - exists (Message.status m). rewrite setStatus_same. by apply lookup_app_l_Some.
      - destruct (findOneAndUpdate_lookup
                    (λ m, bool_decide (Message.messageId m = mid))
                    (MessageHelpers.setStatus Message.read) _ i m Hm) as [Hi|Hi].
        + exists (Message.status m). by rewrite setStatus_same.
        + by exists Message.read.
      - unfold updateMany. rewrite list_lookup_fmap, Hm. cbn.
        destruct (bool_decide _).
        + by exists Message.read.
        + exists (Message.status m). by rewrite setStatus_same. }
    destruct Hstep as (s1 & Hs1).
    destruct (IH _ _ Hs1) as (s & Hs). exists s. by rewrite Hs.
Qed.

Lemma messages_are_kept_witness :
  ∃ s, messages (db (run greeted
                       [MessageRead "s1" "room_customer_10_abc_w1" 20;
                        SendMessage "s1" hello 30;
                        EndChat "s1" "room_customer_10_abc_w1" "w1" 40]).1) !! 0%nat
       = Some (MessageHelpers.setStatus s (MessageHelpers.document (messageData_of hi 20))).
Proof.
  apply (messages_are_kept greeted). vm_compute. reflexivity.
Defined.

(** ** What is sent and what is stored *)

Lemma run_cons_full `{!ObjectIds} st ev evs :
  run st (ev :: evs)
  = ((run (handle st ev).1 evs).1, (handle st ev).2 ++ (run (handle st ev).1 evs).2).
Proof.
  change (run st (ev :: evs))
    with (let '(st1, out1) := handle st ev in
          let '(st2, out2) := run st1 evs in (st2, out1 ++ out2)).
  destruct (handle st ev) as [st1 out1]. cbn [fst snd].
  by destruct (run st1 evs).
Qed.




Lemma setStatus_setStatus s s' m :
  MessageHelpers.setStatus s (MessageHelpers.setStatus s' m) = MessageHelpers.setStatus s m.
Proof. done. Qed.






(** ** Joining a room, typing, reading in bulk *)

(** X9: when a customer who was admitted joins with a room id, and the
    customer's worker is bound to a connected socket, the customer's
    socket and the worker's socket are both in that room afterwards (both
    receive what is broadcast to it), the socket carries the customer id
    and room id, the worker's room is told [customer-connected], and
    neither the store nor [activeCustomers] changes. *)
Theorem customer_join_gathers_both `{!ObjectIds}
    (sid customerId roomId workerSocketId : string)
    (st : State) (sk workerSocket : Socket.t) (customer : Customer.t) :
  sockets st !! sid = Some sk →
  jsmap_get customerId (activeCustomers st) = Some customer →
  findWorkerSocket (Customer.workerId customer) st = Some workerSocketId →
  truthy workerSocketId = true →
  sockets st !! workerSocketId = Some workerSocket →
  let st' := (handle st (CustomerJoin sid customerId roomId)).1 in
  (handle st (CustomerJoin sid customerId roomId)).2
  = [emit (to_room (worker_room (Customer.workerId customer)))
       (customer_connected customerId roomId)]
  ∧ receives st' sid (to_room roomId) = true
  ∧ receives st' workerSocketId (to_room roomId) = true
  ∧ (∃ sk', sockets st' !! sid = Some sk'
       ∧ Socket.customerId sk' = Some customerId ∧ Socket.roomId sk' = Some roomId)
  ∧ db st' = db st ∧ activeCustomers st' = activeCustomers st
  ∧ workerSockets st' = workerSockets st.
Proof.
  intros Hsk Hcust Hbound Htruthy Hwsk st'. subst st'.
  cbn [handle]. unfold on_socket. rewrite Hsk. unfold on_customer_join.
  cbn [activeCustomers with_sockets]. rewrite Hcust.
  unfold findWorkerSocket in *. cbn [workerSockets with_sockets]. rewrite Hbound.
  cbn [Socket.prop]. rewrite Htruthy. cbn [sockets with_sockets].
  set (sk1 := Socket.set_customer customerId roomId (Socket.join roomId sk)).
  assert (Hin : ∀ s, roomId ∈ Socket.rooms (Socket.join roomId s)).
  { intros s. cbn. set_solver. }
  destruct (decide (workerSocketId = sid)) as [->|Hne].
  - rewrite lookup_insert_eq. cbn [fst snd sockets db activeCustomers workerSockets with_sockets].
    split; [done|]. unfold receives. cbn [sockets with_sockets]. rewrite !lookup_insert_eq.
    split; [by apply bool_decide_eq_true_2|].
    split; [by apply bool_decide_eq_true_2|]. split; [|done].
    eexists. split; [done|]. done.
  - rewrite lookup_insert_ne, Hwsk by done.
    cbn [fst snd sockets db activeCustomers workerSockets with_sockets].
    split; [done|]. unfold receives. cbn [sockets with_sockets].
    rewrite lookup_insert_eq, lookup_insert_ne, lookup_insert_eq by done.
    split; [apply bool_decide_eq_true_2; subst sk1; cbn; set_solver|].
    split; [by apply bool_decide_eq_true_2|]. split; [|done].
    eexists. split; [done|]. done.
Qed.

Lemma customer_join_gathers_both_witness :
  let st := (run (boot [alice; bob])
               [Connection "s1"; WorkerJoin "s1" "w1" 5; PostCustomerJoin 10 "abc" (soon 10);
                Connection "c1"]).1 in
  let st' := (handle st (CustomerJoin "c1" "customer_10_abc" "room_customer_10_abc_w1")).1 in
  receives st' "c1" (to_room "room_customer_10_abc_w1") = true
  ∧ receives st' "s1" (to_room "room_customer_10_abc_w1") = true.
Proof.
  refine (let H := customer_join_gathers_both "c1" "customer_10_abc"
                     "room_customer_10_abc_w1" "s1"
                     (run (boot [alice; bob])
                        [Connection "s1"; WorkerJoin "s1" "w1" 5; PostCustomerJoin 10 "abc" (soon 10);
                         Connection "c1"]).1
                     (Socket.fresh "c1")
                     (Socket.set_workerId "w1" (Socket.join (worker_room "w1") (Socket.fresh "s1")))
                     (Customer.mk "customer_10_abc" "room_customer_10_abc_w1" "w1" "alice" 14)
                     _ _ _ _ _ in
          conj (proj1 (proj2 H)) (proj1 (proj2 (proj2 H)))).
  all: vm_compute; reflexivity.
Defined.

(** X10: [customer-join] does not check the customer: a socket that joins
    with a customer id that is not in [activeCustomers] is put into the
    room it names all the same and receives what is broadcast to that
    room; nobody is notified and no worker is brought into the room. *)
Theorem unknown_customer_still_joins `{!ObjectIds} (sid customerId roomId : string)
    (st : State) (sk : Socket.t) :
  sockets st !! sid = Some sk →
  jsmap_get customerId (activeCustomers st) = None →
  handle st (CustomerJoin sid customerId roomId)
  = (with_sockets
       (<[sid := Socket.set_customer customerId roomId (Socket.join roomId sk)]> (sockets st))
       st, [])
  ∧ receives (handle st (CustomerJoin sid customerId roomId)).1 sid (to_room roomId) = true.
Proof.
  intros Hsk Hnone. cbn [handle]. unfold on_socket. rewrite Hsk.
  unfold on_customer_join. cbn [activeCustomers with_sockets]. rewrite Hnone.
  split; [done|]. unfold receives. cbn [fst sockets with_sockets].
  rewrite lookup_insert_eq. apply bool_decide_eq_true_2. cbn. set_solver.
Qed.

Lemma unknown_customer_still_joins_witness :
  receives (handle chatting (CustomerJoin "s1" "nobody" "room_customer_10_abc_w1")).1
    "s1" (to_room "room_customer_10_abc_w1") = true.
Proof.
  refine (proj2 (unknown_customer_still_joins "s1" "nobody" "room_customer_10_abc_w1"
                   chatting
                   (Socket.mk (Some "w1") None None
                      ({[ "room_customer_10_abc_w1" ]} ∪ ({[ worker_room "w1" ]} ∪ {[ "s1" ]})))
                   _ _)).
  all: vm_compute; reflexivity.
Defined.

(** X11: the typing relay keeps no state.  A [typing-start] or
    [typing-stop] with a room and a sender is passed on as [user-typing]
    to the sockets of the room except the socket it came from, which never
    receives it; without a room or without a sender nothing is sent. *)
Theorem typing_is_relayed_to_the_others `{!ObjectIds}
    (sid roomId sender : string) (st : State) :
  is_Some (sockets st !! sid) →
  let relayed := λ typing ev,
    handle st ev
    = (st, if truthy roomId && truthy sender
           then [emit (to_room_except roomId sid) (user_typing sender typing)]
           else []) in
  relayed true (TypingStart sid roomId sender)
  ∧ relayed false (TypingStop sid roomId sender)
  ∧ receives st sid (to_room_except roomId sid) = false
  ∧ (∀ other, other ≠ sid →
       receives st other (to_room_except roomId sid) = receives st other (to_room roomId)).
Proof.
  intros [sk Hsk] relayed. subst relayed. cbn [handle]. unfold on_socket, on_typing.
  rewrite Hsk. split; [|split; [|split]].
  - by destruct (truthy roomId), (truthy sender).
  - by destruct (truthy roomId), (truthy sender).
  - unfold receives. rewrite Hsk. rewrite (bool_decide_eq_false_2 (sid ≠ sid)) by auto.
    by rewrite andb_false_r.
  - intros other Hne. unfold receives. destruct (sockets st !! other); [|done].
    rewrite (bool_decide_eq_true_2 (other ≠ sid)) by done. by rewrite andb_true_r.
Qed.

Lemma typing_is_relayed_to_the_others_witness :
  handle chatting (TypingStart "c1" "room_customer_10_abc_w1" "customer")
  = (chatting, [emit (to_room_except "room_customer_10_abc_w1" "c1")
                  (user_typing "customer" true)])
  ∧ receives chatting "s1" (to_room_except "room_customer_10_abc_w1" "c1") = true.
Proof.
  destruct (typing_is_relayed_to_the_others "c1" "room_customer_10_abc_w1" "customer"
              chatting) as (Hstart & _ & _ & Hothers).
  - vm_compute. eauto.
  - split; [exact Hstart|]. rewrite Hothers by done. vm_compute. reflexivity.
Defined.

Lemma with_db_same_messages st :
  with_db (with_messages (messages (db st)) (db st)) st = st.
Proof. by destruct st as [[] ????]. Qed.

Lemma updateMany_none {A} (u : A → A) (c : list A) :
  updateMany (λ _, false) u c = c.
Proof. unfold updateMany. apply list_fmap_id. Qed.

(** Marking one id and then a list of ids is marking the list with the id
    in front, when the stored ids are unique. *)
Lemma read_one_then_many (i : Z) (l : list Z) (ms : list Message.t) :
  NoDup (Message.messageId <$> ms) →
  updateMany (λ m, bool_decide (Message.messageId m ∈ l))
    (MessageHelpers.setStatus Message.read)
    (findOneAndUpdate (λ m, bool_decide (Message.messageId m = i))
       (MessageHelpers.setStatus Message.read) ms)
  = updateMany (λ m, bool_decide (Message.messageId m ∈ i :: l))
      (MessageHelpers.setStatus Message.read) ms.
Proof.
  intros Hnd. rewrite (findOneAndUpdate_unique Message.messageId) by done.
  unfold updateMany. rewrite <- list_fmap_compose. apply list_fmap_ext.
  intros k m _. cbn. destruct (decide (Message.messageId m = i)) as [Hi|Hi].
  - rewrite (bool_decide_eq_true_2 (Message.messageId m = i)) by done.
    rewrite (bool_decide_eq_true_2 (_ ∈ i :: l)) by (rewrite Hi; left).
    by destruct (bool_decide _).
  - rewrite (bool_decide_eq_false_2 (Message.messageId m = i)) by done.
    destruct (decide (Message.messageId m ∈ l)) as [Hl|Hl].
    + rewrite !bool_decide_eq_true_2; [done|by right|done].
    + rewrite !bool_decide_eq_false_2; [done| |done].
      intros [?|?]%elem_of_cons; done.
Qed.

(** X12: reading in bulk is reading one by one.  For a connected socket,
    a room id and message ids that are not zero, and a store whose message
    ids are unique, a [messages-read] changes the state and sends the
    status updates exactly as the [message-read] events for the same ids
    in the same order do. *)
Theorem bulk_read_is_reads_in_turn `{!ObjectIds} (sid roomId : string) (messageIds : list Z)
    (st : State) :
  is_Some (sockets st !! sid) →
  truthy roomId = true →
  Forall (λ i, i ≠ 0) messageIds →
  NoDup (message_ids st) →
  handle st (MessagesRead sid roomId messageIds)
  = run st (MessageRead sid roomId <$> messageIds).
Proof.
  intros [sk Hsk] Hroom Hids. revert st Hsk.
  induction Hids as [|i l Hi Hl IH]; intros st Hsk Hnd.
  - cbn [handle run fmap list_fmap]. unfold on_socket. rewrite Hsk.
    unfold on_messages_read. cbn [fmap list_fmap].
    assert (Hsame : updateMany (λ m, bool_decide (Message.messageId m ∈ @nil Z))
                      (MessageHelpers.setStatus Message.read) (messages (db st))
                    = messages (db st)).
    { unfold updateMany. etrans; [|apply list_fmap_id].
      apply list_fmap_ext. intros k m _.
      rewrite bool_decide_eq_false_2; [done|]. by intros ?%elem_of_nil. }
    by rewrite Hsame, with_db_same_messages.
  - rewrite fmap_cons, run_cons_full.
    set (st1 := (handle st (MessageRead sid roomId i)).1).
    assert (Hst1 : handle st (MessageRead sid roomId i)
                   = (with_db (MessageHelpers.updateStatus i Message.read (db st)) st,
                      [emit (to_room roomId) (message_status_update i Message.read)])).
    { cbn [handle]. unfold on_socket, on_message_read, truthyZ. rewrite Hsk, Hroom.
      by rewrite bool_decide_eq_true_2. }
    subst st1. rewrite Hst1. cbn [fst snd].
    rewrite <- IH.
    + cbn [handle]. unfold on_socket. cbn [sockets with_db]. rewrite Hsk.
      unfold on_messages_read. cbn [fst snd fmap list_fmap app].
      f_equal. unfold with_db, with_messages, MessageHelpers.updateStatus.
      cbn [db messages workers chatRooms customerSessions workerSockets activeCustomers
           sockets timers]. do 2 f_equal.
      symmetry. apply read_one_then_many. exact Hnd.
    + done.
    + unfold message_ids, MessageHelpers.updateStatus. cbn [db with_db messages with_messages].
      by rewrite findOneAndUpdate_keys.
Qed.

Lemma bulk_read_is_reads_in_turn_witness :
  let st := (run greeted [SendMessage "s1" hello 30]).1 in
  handle st (MessagesRead "c1" "room_customer_10_abc_w1" [30; 20; 99])
  = run st (MessageRead "c1" "room_customer_10_abc_w1" <$> [30; 20; 99]).
Proof.
  apply (bulk_read_is_reads_in_turn "c1" "room_customer_10_abc_w1" [30; 20; 99]).
  - vm_compute. eauto.
  - reflexivity.
  - repeat constructor; lia.
  - vm_compute. apply NoDup_cons_2; [|apply NoDup_singleton].
    intros Hin%list_elem_of_singleton. discriminate Hin.
Defined.

(** ** The loss of a worker's socket *)

(** X13: when a socket that joined as a worker (and not as a customer) is
    lost, the socket is gone and nothing is sent, so the customer of the
    worker is not told; rooms, messages and [activeCustomers] are left as
    they are (the worker's session stays active), and so are the other
    workers and their entries in [workerSockets].  When the store can cast
    the worker id, the worker is set offline with no assigned customer and
    its entry in [workerSockets] is removed; when it cannot, the update
    throws before the entry is deleted, and nothing but the socket table
    changes: the entry stays. *)
Theorem worker_drop_goes_offline `{!ObjectIds} (sid workerId : string) (now : Z)
    (st : State) (sk : Socket.t) :
  sockets st !! sid = Some sk →
  Socket.prop (Socket.workerId sk) = Some workerId →
  Socket.prop (Socket.customerId sk) = None →
  let st' := (handle st (Disconnect sid now)).1 in
  (handle st (Disconnect sid now)).2 = []
  ∧ sockets st' !! sid = None
  ∧ chatRooms (db st') = chatRooms (db st)
  ∧ messages (db st') = messages (db st)
  ∧ activeCustomers st' = activeCustomers st
  ∧ (∀ other, other ≠ workerId →
       findById other (db st') = findById other (db st)
       ∧ workerSockets st' !! other = workerSockets st !! other)
  ∧ (castable workerId = true →
       (∀ w, findById workerId (db st) = Some w →
          ∃ w', findById workerId (db st') = Some w'
            ∧ Worker.status w' = Worker.offline ∧ Worker.currentCustomer w' = None
            ∧ Worker.lastActive w' = now)
       ∧ workerSockets st' !! workerId = None)
  ∧ (castable workerId = false →
       st' = with_sockets (delete sid (sockets st)) st
       ∧ workerSockets st' !! workerId = workerSockets st !! workerId).
Proof.
  intros Hsk Hw Hc st'. subst st'. cbn [handle]. unfold on_socket. rewrite Hsk.
  unfold on_disconnect, customer_left, worker_left. rewrite Hw, Hc.
  destruct (castable workerId);
    cbn [fst snd db with_db with_workerSockets with_sockets sockets workerSockets
         activeCustomers].
  - split; [done|]. split; [apply lookup_delete_eq|].
    split; [done|]. split; [done|]. split; [done|]. split; [|split; [|done]].
    + intros other Hne. split; [by apply findById_updateStatus_other|].
      by apply lookup_delete_ne.
    + intros _. split; [|apply lookup_delete_eq].
      intros w Hfind. rewrite findById_updateStatus_same, Hfind.
      cbn [fmap option_fmap option_map]. eexists. split; [done|].
      by rewrite updateData_status, updateData_currentCustomer, updateData_lastActive.
  - split; [done|]. split; [apply lookup_delete_eq|].
    split; [done|]. split; [done|]. split; [done|]. split; [done|]. split; done.
Qed.

Lemma worker_drop_goes_offline_witness :
  (handle chatting (Disconnect "s1" 40)).2 = []
  ∧ (Worker.status <$> findById "w1" (db (handle chatting (Disconnect "s1" 40)).1))
    = Some Worker.offline
  ∧ workerSockets (handle chatting (Disconnect "s1" 40)).1 !! "w1" = None
  ∧ chatRooms (db (handle chatting (Disconnect "s1" 40)).1) = chatRooms (db chatting).
Proof.
  destruct (worker_drop_goes_offline "s1" "w1" 40 chatting
              (Socket.mk (Some "w1") None None
                 ({[ "room_customer_10_abc_w1" ]} ∪ ({[ worker_room "w1" ]} ∪ {[ "s1" ]}))))
    as (Hout & _ & Hrooms & _ & _ & _ & Hcast & _).
  - vm_compute. reflexivity.
  - reflexivity.
  - reflexivity.
  - destruct (Hcast eq_refl) as [Hworker Hentry].
    split; [exact Hout|]. split; [|split; [exact Hentry|exact Hrooms]].
    destruct (Hworker (Worker.mk "w1" "alice" Worker.busy (Some "customer_10_abc") 0 11))
      as (w' & Hf & Hs & _); [vm_compute; reflexivity|].
    rewrite Hf. cbn. by rewrite Hs.
Defined.

(** X24: what [worker-join] reports.  With a worker id that the store can
    cast, the status of the worker is sent to the worker's room, in which
    the joining socket is by then: [available] with no customer when the
    worker exists, [offline] when it does not, and with it the number of
    customers in [activeCustomers].  With a worker id that the store cannot
    cast the update throws: nothing is sent, but the socket has been bound
    to the id all the same, and a store that holds no worker under this id
    is left as it is. *)
Theorem worker_join_reports_status `{!ObjectIds} (sid workerId : string) (now : Z)
    (st : State) :
  is_Some (sockets st !! sid) →
  let st' := (handle st (WorkerJoin sid workerId now)).1 in
  let out := (handle st (WorkerJoin sid workerId now)).2 in
  let report := λ status,
    [emit (to_room (worker_room workerId))
       (worker_status status None (length (activeCustomers st)))] in
  receives st' sid (to_room (worker_room workerId)) = true
  ∧ workerSockets st' !! workerId = Some sid
  ∧ (findById workerId (db st) = None → db st' = db st)
  ∧ (castable workerId = true →
       (is_Some (findById workerId (db st)) → out = report Worker.available)
       ∧ (findById workerId (db st) = None → out = report Worker.offline))
  ∧ (castable workerId = false → out = []).
Proof.
  intros [sk Hsk] st' out report. subst st' out report.
  cbn [handle]. unfold on_socket. rewrite Hsk. unfold on_worker_join.
  cbn [fst snd db with_db with_workerSockets with_sockets sockets workerSockets
       activeCustomers].
  split; [|split; [|split; [|split]]].
  - unfold receives, with_db, with_workerSockets, with_sockets. cbn [sockets].
    rewrite lookup_insert_eq.
    apply bool_decide_eq_true_2.
    cbn [Socket.rooms Socket.set_workerId Socket.join]. set_solver.
  - unfold with_db, with_workerSockets, with_sockets. cbn [workerSockets].
    apply lookup_insert_eq.
  - intros Hnone. unfold findById in Hnone. unfold WorkerHelpers.updateStatus.
    replace (findOneAndUpdate _ _ (workers (db st))) with (workers (db st));
      [by destruct (db st)|].
    revert Hnone. induction (workers (db st)) as [|w ws IH]; [done|].
    cbn [findOne findOneAndUpdate]. destruct (bool_decide _); [done|].
    intros Hnone. f_equal. by apply IH.
  - intros ->. rewrite findById_updateStatus_same. split.
    + intros [w ->]. cbn [fmap option_fmap option_map from_option mbind option_bind].
      by rewrite updateData_status, updateData_currentCustomer.
    + by intros ->.
  - by intros ->.
Qed.

Lemma worker_join_reports_status_witness :
  (handle chatting (WorkerJoin "s1" "w1" 30)).2
  = [emit (to_room (worker_room "w1")) (worker_status Worker.available None 1)]
  ∧ (handle chatting (WorkerJoin "s1" "zz" 30)).2 = []
  ∧ workerSockets (handle chatting (WorkerJoin "s1" "zz" 30)).1 !! "zz" = Some "s1"
  ∧ db (handle chatting (WorkerJoin "s1" "zz" 30)).1 = db chatting.
Proof.
  assert (Hs1 : is_Some (sockets chatting !! "s1")) by (vm_compute; eauto).
  destruct (worker_join_reports_status "s1" "w1" 30 chatting Hs1)
    as (_ & _ & _ & Hcast & _).
  destruct (worker_join_reports_status "s1" "zz" 30 chatting Hs1)
    as (_ & Hbound & Hdb & _ & Hnocast).
  split; [apply (Hcast eq_refl); vm_compute; eauto|].
  split; [exact (Hnocast eq_refl)|]. split; [exact Hbound|].
  apply Hdb. vm_compute. reflexivity.
Defined.

(** ** The customers that are present *)

Section JsMapMore.
Context {V : Type}.

Lemma jsmap_set_elem (k : string) (v : V) (m : list (string * V)) (kv : string * V) :
  kv ∈ jsmap_set k v m → kv = (k, v) ∨ kv ∈ m.
Proof.
  induction m as [|x m IH]; cbn [jsmap_set].
  - intros ?%list_elem_of_singleton. by left.
  - case_bool_decide.
    + intros [->|?]%elem_of_cons; [by left|right; by right].
    + intros [->|Hin]%elem_of_cons; [right; left|].
      destruct (IH Hin) as [?|?]; [by left|right; by right].
Qed.

Lemma jsmap_set_NoDup {K} (f : V → K) (k : string) (v : V) (m : list (string * V)) :
  f v ∉ (f <$> jsmap_values m) →
  NoDup (f <$> jsmap_values m) → NoDup (f <$> jsmap_values (jsmap_set k v m)).
Proof.
  unfold jsmap_values. induction m as [|x m IH]; cbn [jsmap_set]; intros Hv Hnd.
  - cbn. apply NoDup_singleton.
  - rewrite !fmap_cons in Hv, Hnd. apply NoDup_cons in Hnd as [Hx Hnd].
    apply not_elem_of_cons in Hv as [Hne Hv].
    case_bool_decide; rewrite !fmap_cons; apply NoDup_cons.
    + done.
    + split; [|by apply IH].
      intros (y & Hy & (kv & -> & Hkv)%list_elem_of_fmap)%list_elem_of_fmap.
      destruct (jsmap_set_elem _ _ _ _ Hkv) as [->|Hin].
      * cbn in Hy. congruence.
      * apply Hx. rewrite Hy. by do 2 apply list_elem_of_fmap_2.
Qed.

Lemma jsmap_get_elem (k : string) (v : V) (m : list (string * V)) :
  jsmap_get k m = Some v → (k, v) ∈ m.
Proof.
  unfold jsmap_get. induction m as [|[k' v'] m IH]; [done|]. cbn [findOne fst].
  case_bool_decide as Hk.
  - cbn. intros [= ->]. subst. left.
  - intros ?%IH. by right.
Qed.
End JsMapMore.

Lemma presence_ext st st' :
  activeCustomers st' = activeCustomers st →
  ChatRoom.roomId <$> chatRooms (db st') = ChatRoom.roomId <$> chatRooms (db st) →
  presence_ok st → presence_ok st'.
Proof. unfold presence_ok. by intros -> ->. Qed.

Lemma presence_delete st st' k :
  activeCustomers st' = jsmap_delete k (activeCustomers st) →
  ChatRoom.roomId <$> chatRooms (db st') = ChatRoom.roomId <$> chatRooms (db st) →
  presence_ok st → presence_ok st'.
Proof.
  unfold presence_ok, jsmap_delete, jsmap_values. intros -> -> [Hall Hnd]. split.
  - rewrite Forall_forall in Hall. apply Forall_forall.
    intros kc [_ Hkc]%list_elem_of_filter. by apply Hall.
  - eapply sublist_NoDup; [exact Hnd|].
    do 2 apply fmap_sublist. apply sublist_filter.
Qed.

Lemma rooms_step_ids rs rs' :
  rooms_step rs rs' →
  ChatRoom.roomId <$> rs' = ChatRoom.roomId <$> rs
  ∨ ∃ r, rs' = rs ++ [r].
Proof.
  intros [|roomId customerId w now _|roomId now].
  - by left.
  - right. by eexists.
  - left. by apply findOneAndUpdate_keys.
Qed.

Lemma handle_presence `{!ObjectIds} st ev : presence_ok st → presence_ok (handle st ev).1.
Proof.
  intros Hok.
  destruct ev; cbn [handle]; unfold on_socket;
    try (destruct (sockets st !! sid) as [sk|]; [|done]).
  - destruct (findAvailableWorker (db st)) as [w|] eqn:Hw;
      [|by rewrite admitCustomer_busy].
    rewrite (admitCustomer_found now random resumed st w Hw).
    unfold ChatRoomHelpers.create, saveCustomerSession.
    cbn [chatRooms WorkerHelpers.updateStatus with_workers].
    destruct (insertUnique ChatRoom.roomId _ _) as [rs|] eqn:Hrs;
      cbn [mbind option_bind]; [|by apply (presence_ext st)].
    apply insertUnique_Some in Hrs as [Hfresh ->]. cbn in Hfresh.
    destruct Hok as [Hall Hnd]. rewrite Forall_forall in Hall.
    assert (Hgrow : ∀ kc : string * Customer.t,
              Customer.id kc.2 = kc.1
              ∧ Customer.roomId kc.2 ∈ (ChatRoom.roomId <$> chatRooms (db st)) →
              Customer.id kc.2 = kc.1
              ∧ Customer.roomId kc.2
                ∈ (ChatRoom.roomId <$> chatRooms (db st)
                   ++ [ChatRoom.mk (room_of (new_customerId now random) w)
                         (new_customerId now random) (Worker._id w) (Worker.username w)
                         ChatRoom.active (after_updateStatus resumed) None 0])).
    { intros kc [? ?]. split; [done|]. rewrite fmap_app. apply elem_of_app. by left. }
    destruct (insertUnique CustomerSession.customerId _ _) as [cs|];
      cbn [mbind option_bind fst]; unfold presence_ok;
      cbn [db with_db with_activeCustomers activeCustomers chatRooms with_chatRooms
           with_customerSessions].
    + split.
      * apply Forall_forall. intros kc [->|Hin]%jsmap_set_elem.
        -- cbn. split; [done|]. rewrite fmap_app. apply elem_of_app. right. cbn. left.
        -- by apply Hgrow, Hall.
      * apply jsmap_set_NoDup; [|done]. cbn.
        intros (c & Hc & (kc & -> & Hkc)%list_elem_of_fmap)%list_elem_of_fmap.
        apply Hfresh. rewrite Hc. by apply (Hall kc Hkc).
    + split; [|done]. apply Forall_forall. intros kc Hkc. by apply Hgrow, Hall.
  - by apply (presence_ext st).
  - by apply (presence_ext st).
  - unfold on_customer_join. cbn [activeCustomers with_sockets].
    destruct (jsmap_get _ _); [|by apply (presence_ext st)].
    destruct (Socket.prop _); [|by apply (presence_ext st)].
    cbn [sockets with_sockets]. destruct (_ !! _); by apply (presence_ext st).
  - unfold on_send_message, MessageHelpers.saveMessage.
    destruct (MessageHelpers.valid _); [|done].
    destruct (insertUnique Message.messageId _ _); [|done].
    by apply (presence_ext st).
  - unfold on_timeout. destruct (timers st) as [|[??] ?]; [done|].
    by apply (presence_ext st).
  - unfold on_typing. by destruct (_ || _).
  - unfold on_typing. by destruct (_ || _).
  - unfold on_message_read. destruct (_ || _); [done|]. by apply (presence_ext st).
  - by apply (presence_ext st).
  - unfold on_end_chat. destruct (castable workerId); [|done].
    cbn [db with_db activeCustomers].
    assert (Hids : ChatRoom.roomId
                   <$> chatRooms (ChatRoomHelpers.end_ roomId now
                          (WorkerHelpers.updateStatus workerId Worker.available
                             (given None) now (db st)))
                   = ChatRoom.roomId <$> chatRooms (db st)).
    { unfold ChatRoomHelpers.end_, WorkerHelpers.updateStatus.
      cbn [chatRooms with_chatRooms with_workers]. by apply findOneAndUpdate_keys. }
    destruct (findOne _ _) as [c|].
    + by apply (presence_delete st _ (Customer.id c)).
    + by apply (presence_ext st).
  - unfold on_disconnect.
    set (st0 := worker_left sk now (with_sockets (delete sid (sockets st)) st)).
    assert (H0 : presence_ok st0).
    { apply (presence_ext st); subst st0.
      - by rewrite worker_left_activeCustomers.
      - by rewrite worker_left_chatRooms.
      - done. }
    clearbody st0. unfold customer_left.
    destruct (Socket.prop (Socket.customerId sk)) as [cid|]; [|done].
    destruct (Socket.prop (Socket.roomId sk)) as [rid|]; [|done].
    destruct (jsmap_get _ _); [|done].
    apply (presence_delete st0 _ cid); [done| |done].
    cbn [fst db with_db with_activeCustomers].
    unfold ChatRoomHelpers.end_, WorkerHelpers.updateStatus.
    cbn [chatRooms with_chatRooms with_workers]. by apply findOneAndUpdate_keys.
Qed.

(** X14: over every run from start-up [activeCustomers] stays in order:
    every customer in it is kept under its own id and has a room in the
    store, and no two customers in it have the same room. *)
Theorem present_customers_have_their_own_room `{!ObjectIds}
    (ws : list Worker.t) (evs : list Event) :
  presence_ok (run (boot ws) evs).1.
Proof.
  assert (Hrun : ∀ st, presence_ok st → presence_ok (run st evs).1).
  { induction evs as [|ev evs IH]; intros st Hst; [done|].
    rewrite run_cons. by apply IH, handle_presence. }
  apply Hrun. split; [constructor|]. cbn. constructor.
Qed.

Lemma findOne_unique {A K} `{EqDecision K} (f : A → K) (l : list A) (x : A) :
  NoDup (f <$> l) → x ∈ l →
  findOne (λ y, bool_decide (f y = f x)) l = Some x.
Proof.
  intros Hnd Hx. induction l as [|y l IH]; [by apply elem_of_nil in Hx|].
  cbn [findOne]. case_bool_decide as Hy.
  - f_equal. apply (unique_key f (y :: l)); [done|left|done|done].
  - apply IH.
    + rewrite fmap_cons in Hnd. by apply NoDup_cons in Hnd as [_ ?].
    + apply elem_of_cons in Hx as [->|?]; done.
Qed.

(** X15: a chat that was ended is not released a second time.  In a state
    where [activeCustomers] is in order, after an [end-chat] for the room
    of a customer that names a worker id the store can cast, the customer
    is no longer in [activeCustomers]; when the customer's socket is lost
    afterwards, nothing is sent and nothing but the socket table changes,
    so the worker, who may have a new customer by then, is not set
    available again and no room is ended.  (An [end-chat] with a worker id
    that the store cannot cast changes nothing, so that the customer is
    still released by the loss of the socket.) *)
Theorem ended_chat_is_released_once `{!ObjectIds}
    (sidw sidc customerId roomId workerId : string)
    (now now' : Z) (st : State) (skc : Socket.t) (customer : Customer.t) :
  presence_ok st →
  is_Some (sockets st !! sidw) →
  castable workerId = true →
  sockets st !! sidc = Some skc →
  Socket.prop (Socket.workerId skc) = None →
  Socket.prop (Socket.customerId skc) = Some customerId →
  jsmap_get customerId (activeCustomers st) = Some customer →
  Customer.roomId customer = roomId →
  let st1 := (handle st (EndChat sidw roomId workerId now)).1 in
  jsmap_get customerId (activeCustomers st1) = None
  ∧ handle st1 (Disconnect sidc now')
    = (with_sockets (delete sidc (sockets st1)) st1, [])
  ∧ (∀ other, castable other = false →
       handle st (EndChat sidw roomId other now) = (st, [])).
Proof.
  intros [Hall Hnd] [skw Hskw] Hcast Hskc Hnoworker Hcid Hget Hroom st1.
  assert (Hin : (customerId, customer) ∈ activeCustomers st) by by apply jsmap_get_elem.
  assert (Hid : Customer.id customer = customerId).
  { rewrite Forall_forall in Hall. by destruct (Hall _ Hin). }
  assert (Hfound : findOne (λ c, bool_decide (Customer.roomId c = roomId))
                     (jsmap_values (activeCustomers st)) = Some customer).
  { rewrite <- Hroom. apply (findOne_unique Customer.roomId); [done|].
    unfold jsmap_values. by apply (list_elem_of_fmap_2 snd _ (customerId, customer)). }
  assert (Hst1 : activeCustomers st1 = jsmap_delete customerId (activeCustomers st)
                 ∧ sockets st1 = sockets st).
  { subst st1. cbn [handle]. unfold on_socket. rewrite Hskw. unfold on_end_chat.
    rewrite Hcast. cbn [db with_db activeCustomers]. rewrite Hfound. cbn.
    by rewrite Hid. }
  destruct Hst1 as [Hac Hso].
  assert (Hgone : jsmap_get customerId (activeCustomers st1) = None).
  { rewrite Hac. apply jsmap_get_delete. }
  split; [done|]. split.
  - cbn [handle]. unfold on_socket. rewrite Hso, Hskc.
    unfold on_disconnect, worker_left, customer_left. rewrite Hnoworker, Hcid.
    cbn [activeCustomers with_sockets]. rewrite Hgone, Hso.
    by destruct (Socket.prop (Socket.roomId skc)).
  - intros other Hother. cbn [handle]. unfold on_socket. rewrite Hskw.
    unfold on_end_chat. by rewrite Hother.
Qed.

Lemma ended_chat_is_released_once_witness :
  jsmap_get "customer_10_abc" (activeCustomers closed) = None
  ∧ handle closed (Disconnect "c1" 50)
    = (with_sockets (delete "c1" (sockets closed)) closed, [])
  ∧ (∀ other, castable other = false →
       handle chatting (EndChat "s1" "room_customer_10_abc_w1" other 30) = (chatting, [])).
Proof.
  change closed with (handle chatting (EndChat "s1" "room_customer_10_abc_w1" "w1" 30)).1.
  apply (ended_chat_is_released_once "s1" "c1" "customer_10_abc"
           "room_customer_10_abc_w1" "w1" 30 50 chatting
           (Socket.mk None (Some "customer_10_abc") (Some "room_customer_10_abc_w1")
              ({[ "room_customer_10_abc_w1" ]} ∪ {[ "c1" ]}))
           (Customer.mk "customer_10_abc" "room_customer_10_abc_w1" "w1" "alice" 14)).
  - split.
    + vm_compute. repeat constructor.
    + vm_compute. apply NoDup_singleton.
  - vm_compute. eauto.
  - reflexivity.
  - vm_compute. reflexivity.
  - reflexivity.
  - reflexivity.
  - vm_compute. reflexivity.
  - reflexivity.
Defined.

(** ** Statistics *)

(** X16: the worker statistics add up: answered from one state of the
    store, every worker is counted in exactly one of available, busy and
    offline, so the three counts sum to the total. *)
Theorem worker_stats_add_up (d : Store) :
  stat_total (getStats d)
  = (stat_available (getStats d) + stat_busy (getStats d) + stat_offline (getStats d))%nat.
Proof.
  unfold getStats, countDocuments. cbn [stat_total stat_available stat_busy stat_offline].
  induction (workers d) as [|w ws IH]; [done|].
  rewrite !filter_cons. cbn [length]. rewrite IH.
  destruct (Worker.status w) eqn:Hs;
    repeat (destruct (decide _) as [?|?]; try congruence); cbn [length]; lia.
Qed.

Lemma sum_list_zero {A} (l : list A) : sum_list ((λ _, 0%nat) <$> l) = 0%nat.
Proof. induction l; [done|by cbn]. Qed.

Lemma sum_list_plus {A} (f g : A → nat) (l : list A) :
  sum_list ((λ x, (f x + g x)%nat) <$> l) = (sum_list (f <$> l) + sum_list (g <$> l))%nat.
Proof. induction l as [|x l IH]; [done|]. cbn. rewrite IH. lia. Qed.

Lemma sum_list_indicator (x : string) (ids : list string) :
  NoDup ids → x ∈ ids →
  sum_list ((λ i, if decide (x = i) then 1%nat else 0%nat) <$> ids) = 1%nat.
Proof.
  induction ids as [|i ids IH]; [by intros _ ?%elem_of_nil|].
  intros [Hi Hnd]%NoDup_cons Hx. cbn. destruct (decide (x = i)) as [->|Hne].
  - replace (sum_list _) with 0%nat; [done|]. symmetry.
    etrans; [|apply (sum_list_zero ids)]. f_equal. apply list_fmap_ext.
    intros k j Hj. destruct (decide (i = j)) as [->|]; [|done].
    destruct Hi. by eapply list_elem_of_lookup_2.
  - apply elem_of_cons in Hx as [?|Hx]; [done|]. by rewrite IH.
Qed.

(** The active rooms, counted worker by worker. *)
Lemma active_rooms_by_worker (ids : list string) (rs : list ChatRoom.t) :
  NoDup ids →
  Forall (λ r, ChatRoom.status r = ChatRoom.active → ChatRoom.workerId r ∈ ids) rs →
  sum_list ((λ i, length (filter (active_for i) rs)) <$> ids)
  = length (filter (λ r, ChatRoom.status r = ChatRoom.active) rs).
Proof.
  intros Hnd Hrs. induction Hrs as [|r rs Hr Hrs IH].
  - cbn. apply sum_list_zero.
  - etrans.
    { apply (f_equal sum_list).
      apply (list_fmap_ext _
               (λ i, ((if decide (active_for i r) then 1 else 0)
                      + length (filter (active_for i) rs))%nat)).
      intros k i _. rewrite filter_cons. by destruct (decide _). }
    rewrite sum_list_plus, IH, filter_cons.
    destruct (decide (ChatRoom.status r = ChatRoom.active)) as [Hact|Hact].
    + assert (Hone : sum_list ((λ i, if decide (active_for i r) then 1%nat else 0%nat) <$> ids)
                     = 1%nat).
      { etrans; [|exact (sum_list_indicator (ChatRoom.workerId r) ids Hnd (Hr Hact))].
        f_equal. apply list_fmap_ext. intros k i _.
        destruct (decide (ChatRoom.workerId r = i)) as [Heq|Hne].
        - rewrite decide_True; [done|by split].
        - rewrite decide_False; [done|]. by intros [_ ?]. }
      rewrite Hone. done.
    + assert (Hnone : sum_list ((λ i, if decide (active_for i r) then 1%nat else 0%nat) <$> ids)
                      = 0%nat).
      { etrans; [|exact (sum_list_zero ids)].
        f_equal. apply list_fmap_ext. intros k i _.
        destruct (decide (active_for i r)) as [[? _]|]; done. }
      rewrite Hnone. done.
Qed.

(** X17: answered from one consistent state of the store, the number of
    active chats that the admin statistics report is the number of busy
    workers. *)
Theorem active_chats_are_busy_workers (d : Store) :
  consistent d → activeChats d = stat_busy (getStats d).
Proof.
  intros (Hids & _ & Hcount & Href).
  unfold activeChats, getStats, countDocuments. cbn [stat_busy].
  rewrite <- (active_rooms_by_worker (Worker._id <$> workers d)) by done.
  rewrite <- list_fmap_compose. unfold active_sessions in Hcount.
  clear Hids Href. induction Hcount as [|w ws Hw Hws IH]; [done|].
  rewrite fmap_cons, filter_cons. cbn [sum_list compose]. rewrite Hw, IH.
  by destruct (decide (Worker.status w = Worker.busy)).
Qed.

Lemma active_chats_are_busy_workers_witness :
  activeChats (db chatting) = stat_busy (getStats (db chatting)).
Proof.
  apply active_chats_are_busy_workers.
  apply (bool_decide_unpack _). by vm_compute.
Defined.

(** ** Deleting a worker *)

Lemma findOneAndDelete_sublist {A} (q : A → bool) (c : list A) :
  findOneAndDelete q c `sublist_of` c.
Proof.
  induction c as [|d c IH]; [done|]. cbn [findOneAndDelete].
  destruct (q d); [by apply sublist_cons|by apply sublist_skip].
Qed.

Lemma Forall_sublist {A} (P : A → Prop) (l1 l2 : list A) :
  l1 `sublist_of` l2 → Forall P l2 → Forall P l1.
Proof.
  intros Hsub Hall. rewrite Forall_forall in Hall. apply Forall_forall.
  intros x Hx. apply Hall. by eapply elem_of_sublist.
Qed.

Lemma findOne_deleted {A K} `{EqDecision K} (key : A → K) (k : K) (c : list A) :
  NoDup (key <$> c) →
  findOne (λ d, bool_decide (key d = k))
    (findOneAndDelete (λ d, bool_decide (key d = k)) c) = None.
Proof.
  induction c as [|d c IH]; [done|]. rewrite fmap_cons. intros [Hd Hnd]%NoDup_cons.
  cbn [findOneAndDelete]. case_bool_decide as Hk.
  - apply findOne_None. intros d' Hd'. apply bool_decide_eq_false_2.
    intros Hk'. apply Hd. rewrite Hk, <- Hk'. by apply list_elem_of_fmap_2.
  - cbn [findOne]. rewrite bool_decide_eq_false_2 by done. by apply IH.
Qed.

Lemma findOne_not_deleted {A} (q q' : A → bool) (c : list A) :
  (∀ d, q d = true → q' d = false) →
  findOne q' (findOneAndDelete q c) = findOne q' c.
Proof.
  intros Hq. induction c as [|d c IH]; [done|]. cbn [findOneAndDelete findOne].
  destruct (q d) eqn:Hd.
  - by rewrite (Hq d Hd).
  - cbn [findOne]. by rewrite IH.
Qed.

(** X18: the route that deletes a worker (run without another handler in
    between).  Without the admin key (also with none at all) the answer is
    403, and whenever the answer is not the success (403, 500 for an id
    that the store cannot cast, 404 for an unknown id, 400 for a worker
    with an assigned customer) nothing changes.  In a store where ids are
    unique and a worker is assigned
    exactly when busy, a busy worker is never deleted, and a deletion
    needs the admin key and removes exactly that worker and its entry in
    [workerSockets]: the worker is no longer found, every other worker is
    found as before, and rooms, messages, customers and sockets are
    untouched. *)
Theorem delete_worker_guards `{!ObjectIds} (env adminKey workerId : string) (st : State) :
  NoDup (Worker._id <$> workers (db st)) →
  assigned_iff_busy (db st) →
  let reply := (delete_worker env adminKey workerId st).2 in
  let st' := (delete_worker env adminKey workerId st).1 in
  (adminKey ≠ ADMIN_KEY env → reply = admin_access_required)
  ∧ (adminKey = EmptyString → reply = admin_access_required)
  ∧ (reply ≠ worker_deleted → st' = st)
  ∧ (∀ w, findById workerId (db st) = Some w → Worker.status w = Worker.busy →
       reply ≠ worker_deleted)
  ∧ (reply = worker_deleted →
       adminKey = ADMIN_KEY env
       ∧ findById workerId (db st') = None
       ∧ workerSockets st' !! workerId = None
       ∧ (∀ other, other ≠ workerId →
            findById other (db st') = findById other (db st)
            ∧ workerSockets st' !! other = workerSockets st !! other)
       ∧ chatRooms (db st') = chatRooms (db st)
       ∧ messages (db st') = messages (db st)
       ∧ activeCustomers st' = activeCustomers st
       ∧ sockets st' = sockets st)
  ∧ (adminKey = ADMIN_KEY env → castable workerId = false →
       reply = delete_server_error).
Proof.
  intros Hnd Hassigned reply st'. subst reply st'. unfold delete_worker.
  assert (Hkey : ADMIN_KEY env ≠ EmptyString).
  { unfold ADMIN_KEY, or_else, truthy. case_bool_decide; done. }
  split; [|split; [|split; [|split; [|split]]]].
  - intros Hne. by rewrite bool_decide_eq_true_2.
  - intros ->. by rewrite bool_decide_eq_true_2.
  - case_bool_decide; [done|]. destruct (castable workerId); [|done]. cbn [negb].
    destruct (findById workerId (db st)); [|done].
    by destruct (Socket.prop _).
  - intros w Hw Hbusy. rewrite Hw. case_bool_decide; [done|].
    destruct (castable workerId); [|done]. cbn [negb].
    assert (Hin : w ∈ workers (db st)).
    { unfold findById in Hw. clear -Hw. induction (workers (db st)) as [|x l IH]; [done|].
      cbn [findOne] in Hw. destruct (bool_decide _); [injection Hw as ->; left|].
      right. by apply IH. }
    unfold assigned_iff_busy in Hassigned. rewrite Forall_forall in Hassigned.
    destruct (proj1 (Hassigned w Hin) Hbusy) as (cid & -> & Htruthy).
    cbn [Socket.prop]. by rewrite Htruthy.
  - case_bool_decide as Hk; [done|]. destruct (castable workerId); [|done]. cbn [negb].
    destruct (findById workerId (db st)) as [w|]; [|done].
    destruct (Socket.prop _); [done|]. intros _.
    cbn [fst db with_db with_workerSockets workerSockets activeCustomers sockets].
    split; [by destruct (decide (adminKey = ADMIN_KEY env))|].
    split; [by apply (findOne_deleted Worker._id)|].
    split; [apply lookup_delete_eq|]. split; [|done].
    intros other Hne. split; [|by apply lookup_delete_ne].
    apply findOne_not_deleted. intros d Hd%bool_decide_eq_true.
    apply bool_decide_eq_false_2. congruence.
  - intros Hk Hcast. rewrite bool_decide_eq_false_2 by (by intros ?).
    by rewrite Hcast.
Qed.

Lemma delete_worker_guards_witness :
  (delete_worker "s3cret" "s3cret" "w1" chatting).2 = worker_in_chat
  ∧ (delete_worker "s3cret" "s3cret" "w2" chatting).2 = worker_deleted
  ∧ findById "w2" (db (delete_worker "s3cret" "s3cret" "w2" chatting).1) = None.
Proof.
  split; [vm_compute; reflexivity|].
  assert (Hdel : (delete_worker "s3cret" "s3cret" "w2" chatting).2 = worker_deleted)
    by (vm_compute; reflexivity).
  split; [exact Hdel|].
  refine (proj1 (proj2 (proj1 (proj2 (proj2 (proj2 (proj2
            (delete_worker_guards "s3cret" "s3cret" "w2" chatting _ _))))) Hdel))).
  - vm_compute. apply NoDup_cons_2; [|apply NoDup_singleton].
    intros Hin%list_elem_of_singleton. discriminate Hin.
  - vm_compute. repeat apply Forall_cons_2; [| |apply Forall_nil_2].
    + split; [intros _; by eexists|done].
    + split; [done|]. by intros (cid & ? & _).
Defined.

(** X19: deleting a worker keeps the store consistent: in a consistent
    store where a worker is assigned exactly when busy, the store after
    [DELETE /api/admin/workers/:id] is consistent again, whatever the
    answer was, and a worker is still assigned exactly when busy. *)
Theorem delete_worker_keeps_consistency `{!ObjectIds} (env adminKey workerId : string)
    (st : State) :
  consistent (db st) → assigned_iff_busy (db st) →
  consistent (db (delete_worker env adminKey workerId st).1)
  ∧ assigned_iff_busy (db (delete_worker env adminKey workerId st).1).
Proof.
  intros Hcons Hassigned. unfold delete_worker.
  case_bool_decide; [done|]. destruct (castable workerId); [|done]. cbn [negb].
  destruct (findById workerId (db st)) as [w|] eqn:Hw; [|done].
  destruct (Socket.prop (Worker.currentCustomer w)) eqn:Hcc; [done|].
  cbn [fst db with_db with_workerSockets].
  assert (Hin : w ∈ workers (db st) ∧ Worker._id w = workerId).
  { unfold findById in Hw. clear -Hw. induction (workers (db st)) as [|x l IH]; [done|].
    cbn [findOne] in Hw. case_bool_decide.
    - injection Hw as ->. split; [left|done].
    - destruct (IH Hw). split; [by right|done]. }
  destruct Hin as [Hin Hid].
  assert (Hsub : workers (findByIdAndDelete workerId (db st)) `sublist_of` workers (db st))
    by apply findOneAndDelete_sublist.
  split; [|by eapply Forall_sublist].
  unfold assigned_iff_busy in Hassigned.
  destruct Hcons as (Hids & Hrooms & Hcount & Href).
  rewrite Forall_forall in Hassigned. rewrite Forall_forall in Hcount.
  assert (Hidle : Worker.status w ≠ Worker.busy).
  { intros Hbusy. destruct (proj1 (Hassigned w Hin) Hbusy) as (cid & Hc & Htruthy).
    rewrite Hc in Hcc. cbn in Hcc. by rewrite Htruthy in Hcc. }
  assert (Hnone : active_sessions workerId (db st) = []).
  { specialize (Hcount w Hin). rewrite decide_False, Hid in Hcount by done.
    by destruct (active_sessions workerId (db st)). }
  unfold consistent, active_sessions. cbn [workers chatRooms findByIdAndDelete with_workers].
  split; [|split; [done|split]].
  - eapply sublist_NoDup; [exact Hids|]. by apply fmap_sublist.
  - eapply Forall_sublist; [exact Hsub|]. by apply Forall_forall.
  - rewrite Forall_forall in Href. apply Forall_forall. intros r Hr Hact.
    specialize (Href r Hr Hact).
    apply list_elem_of_fmap in Href as (x & Hx & Hxin).
    assert (Hne : Worker._id x ≠ workerId).
    { intros Heq. assert (Hmem : r ∈ active_sessions workerId (db st)).
      { apply list_elem_of_filter. split; [|done]. split; [done|congruence]. }
      rewrite Hnone in Hmem. by apply elem_of_nil in Hmem. }
    rewrite Hx. apply list_elem_of_fmap_2.
    clear -Hxin Hne. induction (workers (db st)) as [|y l IH]; [done|].
    cbn [findOneAndDelete]. apply elem_of_cons in Hxin as [->|Hxin].
    + rewrite bool_decide_eq_false_2 by done. left.
    + destruct (bool_decide _); [done|]. right. by apply IH.
Qed.

Lemma delete_worker_keeps_consistency_witness :
  consistent (db (delete_worker "s3cret" "s3cret" "w2" chatting).1)
  ∧ assigned_iff_busy (db (delete_worker "s3cret" "s3cret" "w2" chatting).1).
Proof.
  apply (delete_worker_keeps_consistency "s3cret" "s3cret" "w2" chatting).
  - apply (bool_decide_unpack _). by vm_compute.
  - vm_compute. repeat apply Forall_cons_2; [| |apply Forall_nil_2].
    + split; [intros _; by eexists|done].
    + split; [done|]. by intros (cid & ? & _).
Defined.

(** ** Public ids from URLs *)

Lemma append_nil (t : string) : EmptyString +:+ t = t.
Proof. reflexivity. Qed.

Lemma append_cons (c : Ascii.ascii) (s t : string) :
  String c s +:+ t = String c (s +:+ t).
Proof. reflexivity. Qed.

Lemma free_of_append (c : Ascii.ascii) (s t : string) :
  free_of c (s +:+ t) = free_of c s && free_of c t.
Proof.
  induction s as [|c' s IH]; [done|]. rewrite append_cons. cbn [free_of].
  by rewrite IH, andb_assoc.
Qed.

Lemma split_nonempty (sep : Ascii.ascii) (s : string) : split sep s ≠ [].
Proof.
  induction s as [|c s IH]; [done|]. cbn [split].
  destruct (decide (c = sep)); [done|]. by destruct (split sep s).
Qed.

Lemma split_free (sep : Ascii.ascii) (s : string) :
  free_of sep s = true → split sep s = [s].
Proof.
  induction s as [|c s IH]; [done|]. cbn [free_of split].
  intros [Hc Hs]%andb_prop. apply negb_true_iff, bool_decide_eq_false in Hc.
  rewrite decide_False by done. by rewrite IH.
Qed.

Lemma split_app (sep : Ascii.ascii) (s t : string) :
  free_of sep s = true →
  split sep (s +:+ String sep t) = s :: split sep t.
Proof.
  induction s as [|c s IH].
  - intros _. rewrite append_nil. cbn [split]. by rewrite decide_True.
  - cbn [free_of]. intros [Hc Hs]%andb_prop.
    apply negb_true_iff, bool_decide_eq_false in Hc.
    rewrite append_cons. cbn [split]. rewrite decide_False by done. by rewrite IH.
Qed.

Lemma split_join (sep : Ascii.ascii) (parts : list string) :
  parts ≠ [] → Forall (λ p, free_of sep p = true) parts →
  split sep (join (String sep EmptyString) parts) = parts.
Proof.
  induction parts as [|p parts IH]; [done|]. intros _ [Hp Hps]%Forall_cons.
  cbn [join]. destruct parts as [|q parts]; [by apply split_free|].
  rewrite append_cons, append_nil, split_app by done. f_equal. by apply IH.
Qed.

Lemma indexOf_bounds (x : string) (parts : list string) :
  -1 ≤ indexOf x parts < Z.of_nat (length parts).
Proof.
  induction parts as [|p parts IH]; cbn [indexOf length]; [lia|].
  destruct (decide (p = x)); [lia|]. destruct (Z.ltb_spec (indexOf x parts) 0); lia.
Qed.

Lemma indexOf_absent (x : string) (parts : list string) :
  x ∉ parts → indexOf x parts = -1.
Proof.
  induction parts as [|p parts IH]; [done|]. intros [Hp Hps]%not_elem_of_cons.
  cbn [indexOf]. rewrite decide_False by done. by rewrite IH.
Qed.

Lemma indexOf_first (x : string) (before after : list string) :
  x ∉ before → indexOf x (before ++ x :: after) = Z.of_nat (length before).
Proof.
  induction before as [|p before IH]; cbn [app indexOf length].
  - intros _. by rewrite decide_True.
  - intros [Hp Hps]%not_elem_of_cons. rewrite decide_False by done.
    rewrite IH by done. destruct (Z.ltb_spec (Z.of_nat (length before)) 0); lia.
Qed.

Lemma slice_to_last {A} (before middle : list A) (x : A) :
  slice (Z.of_nat (length before)) (-1) (before ++ middle ++ [x]) = middle.
Proof.
  unfold slice. rewrite !length_app. cbn [length].
  destruct (Z.ltb_spec (Z.of_nat (length before)) 0); [lia|].
  replace (-1 <? 0) with true by done.
  rewrite Z.min_l, Z.max_l by lia. rewrite Nat2Z.id, drop_app_length.
  replace (Z.to_nat _) with (length middle) by lia.
  by rewrite take_app_length.
Qed.

(** The stem of a file name: what comes before its first dot. *)
Lemma head_split_dot (stem rest : string) :
  free_of "."%char stem = true →
  head (split "."%char stem) = Some stem ∧ head (split "."%char (stem +:+ String "."%char rest)) = Some stem.
Proof.
  intros Hstem. by rewrite split_free, split_app.
Qed.

Lemma free_of_upload (s t : string) : s +:+ String "."%char t ≠ "upload".
Proof.
  intros Heq. assert (Hfree : free_of "."%char (s +:+ String "."%char t) = true) by by rewrite Heq.
  rewrite free_of_append in Hfree. apply andb_prop in Hfree as [_ Hfree].
  cbn [free_of] in Hfree. by rewrite bool_decide_eq_true_2 in Hfree.
Qed.

(** X20: the public id of a delivery URL.  For a URL
    [.../upload/folder/.../stem.format], that is the pieces [before],
    ["upload"], [folders] and [stem.format] joined by slashes, where no
    piece holds a slash, no piece before is ["upload"] and the stem holds no
    dot, [getPublicIdFromUrl] returns the folders and the stem joined by
    slashes: the stem alone when there is no folder, and the format (with
    everything after the first dot) is dropped. *)
Theorem public_id_of_delivery_url (before folders : list string) (stem format : string) :
  Forall (λ p, free_of "/"%char p = true) (before ++ folders) →
  "upload" ∉ before →
  free_of "/"%char stem = true → free_of "."%char stem = true → free_of "/"%char format = true →
  getPublicIdFromUrl
    (join "/" (before ++ "upload" :: folders ++ [stem +:+ String "."%char format]))
  = Some (join "/" (folders ++ [stem])).
Proof.
  intros [Hbefore Hfolders]%Forall_app Hupload Hstem Hdot Hformat.
  unfold getPublicIdFromUrl.
  assert (Hfile : free_of "/"%char (stem +:+ String "."%char format) = true).
  { rewrite free_of_append, Hstem. cbn [free_of]. by rewrite Hformat. }
  rewrite split_join.
  2: by destruct before.
  2: { apply Forall_app. split; [done|]. apply Forall_cons. split; [done|].
       apply Forall_app. split; [done|]. by apply Forall_singleton. }
  replace (before ++ "upload" :: folders ++ [stem +:+ String "."%char format])
    with ((before ++ "upload" :: folders) ++ [stem +:+ String "."%char format])
    by by rewrite <- app_assoc.
  rewrite last_snoc. cbn [mbind option_bind].
  rewrite (proj2 (head_split_dot stem format Hdot)). cbn [mbind option_bind].
  rewrite <- app_assoc. cbn [app]. rewrite indexOf_first by done.
  rewrite !length_app. cbn [length]. rewrite !length_app. cbn [length].
  destruct folders as [|f folders].
  - cbn [app length]. destruct (Z.ltb_spec (Z.of_nat (length before) + 1)
      (Z.of_nat (length before + S (0 + 1)) - 1)); [lia|done].
  - destruct (Z.ltb_spec (Z.of_nat (length before) + 1)
      (Z.of_nat (length before + S (length (f :: folders) + 1)) - 1)) as [_|Hge];
      [|cbn [length] in Hge; lia].
    replace (Z.of_nat (length before) + 1) with (Z.of_nat (length (before ++ ["upload"])))
      by (rewrite length_app; cbn [length]; lia).
    replace (before ++ "upload" :: (f :: folders) ++ [stem +:+ String "."%char format])
      with ((before ++ ["upload"]) ++ (f :: folders) ++ [stem +:+ String "."%char format])
      by by rewrite <- app_assoc.
    by rewrite slice_to_last.
Qed.

Lemma public_id_of_delivery_url_witness :
  getPublicIdFromUrl
    "https://res.cloudinary.com/demo/image/upload/sharef-chat/files/1700-42.png"
  = Some "sharef-chat/files/1700-42".
Proof.
  apply (public_id_of_delivery_url
           ["https:"; EmptyString; "res.cloudinary.com"; "demo"; "image"]
           ["sharef-chat"; "files"] "1700-42" "png").
  - by repeat constructor.
  - by apply (bool_decide_unpack _).
  - done.
  - done.
  - done.
Defined.

(** X21: a URL without an ["upload"] piece.  [indexOf] is [-1] then and
    the folders are taken from index 0: for pieces that hold no slash,
    none of them ["upload"], and a stem without a dot, the result is the
    whole URL up to the first dot of its last piece, scheme and host
    included. *)
Theorem public_id_without_upload (pieces : list string) (stem format : string) :
  Forall (λ p, free_of "/"%char p = true) pieces →
  "upload" ∉ pieces →
  free_of "/"%char stem = true → free_of "."%char stem = true → free_of "/"%char format = true →
  getPublicIdFromUrl (join "/" (pieces ++ [stem +:+ String "."%char format]))
  = Some (join "/" (pieces ++ [stem])).
Proof.
  intros Hpieces Hupload Hstem Hdot Hformat. unfold getPublicIdFromUrl.
  assert (Hfile : free_of "/"%char (stem +:+ String "."%char format) = true).
  { rewrite free_of_append, Hstem. cbn [free_of]. by rewrite Hformat. }
  rewrite split_join.
  2: by destruct pieces.
  2: { apply Forall_app. split; [done|]. by apply Forall_singleton. }
  rewrite last_snoc. cbn [mbind option_bind].
  rewrite (proj2 (head_split_dot stem format Hdot)). cbn [mbind option_bind].
  rewrite indexOf_absent.
  2: { intros [Hin|Hin%list_elem_of_singleton]%elem_of_app; [done|].
       by apply (free_of_upload stem format). }
  rewrite length_app. cbn [length].
  destruct pieces as [|p pieces]; [done|].
  destruct (Z.ltb_spec (-1 + 1) (Z.of_nat (length (p :: pieces) + 1) - 1)) as [_|Hge];
    [|cbn [length] in Hge; lia].
  change (-1 + 1) with (Z.of_nat (length (@nil string))).
  change ((p :: pieces) ++ [stem +:+ String "."%char format])
    with ([] ++ (p :: pieces) ++ [stem +:+ String "."%char format]).
  by rewrite slice_to_last.
Qed.

Lemma public_id_without_upload_witness :
  getPublicIdFromUrl "https://example.org/files/report.final.pdf"
  = Some "https://example.org/files/report".
Proof.
  apply (public_id_without_upload ["https:"; EmptyString; "example.org"; "files"]
           "report" "final.pdf").
  - by repeat constructor.
  - by apply (bool_decide_unpack _).
  - done.
  - done.
  - done.
Defined.

Lemma split_pieces_free (sep : Ascii.ascii) (s : string) :
  Forall (λ p, free_of sep p = true) (split sep s).
Proof.
  induction s as [|c s IH]; [by repeat constructor|]. cbn [split].
  destruct (decide (c = sep)) as [|Hc]; [by constructor|].
  destruct (split sep s) as [|p ps]; [repeat constructor|].
  - cbn [free_of]. by rewrite bool_decide_eq_false_2.
  - apply Forall_cons in IH as [Hp Hps]. constructor; [|done].
    cbn [free_of]. by rewrite bool_decide_eq_false_2.
Qed.

Lemma split_keeps_free (c sep : Ascii.ascii) (s : string) :
  free_of c s = true → Forall (λ p, free_of c p = true) (split sep s).
Proof.
  induction s as [|c' s IH]; [by repeat constructor|]. cbn [free_of split].
  intros [Hc Hs]%andb_prop. specialize (IH Hs).
  destruct (decide (c' = sep)); [by constructor|].
  destruct (split sep s) as [|p ps]; [repeat constructor|].
  - cbn [free_of]. by rewrite Hc.
  - apply Forall_cons in IH as [Hp Hps]. constructor; [|done].
    cbn [free_of]. by rewrite Hc, Hp.
Qed.

Lemma Forall_slice {A} (P : A → Prop) (start end_ : Z) (parts : list A) :
  Forall P parts → Forall P (slice start end_ parts).
Proof. intros Hall. unfold slice. by apply Forall_take, Forall_drop. Qed.

(** X22: on a string [getPublicIdFromUrl] never takes the [catch], and
    what it returns has no format left: it is a string whose last piece
    between slashes holds no dot.  For a URL without slash the result
    holds no slash either: it is what comes before the first dot. *)
Theorem public_id_has_no_format (url : string) :
  ∃ publicId stem,
    getPublicIdFromUrl url = Some publicId
    ∧ last (split "/"%char publicId) = Some stem
    ∧ free_of "."%char stem = true
    ∧ (free_of "/"%char url = true →
       publicId = stem ∧ head (split "."%char url) = Some stem).
Proof.
  unfold getPublicIdFromUrl.
  pose proof (split_nonempty "/"%char url) as Hparts.
  pose proof (split_pieces_free "/"%char url) as Hfree.
  destruct (last (split "/"%char url)) as [fileWithExt|] eqn:Hlast.
  2: { apply last_None in Hlast. done. }
  cbn [mbind option_bind].
  assert (Hfile : free_of "/"%char fileWithExt = true).
  { rewrite Forall_forall in Hfree. apply Hfree. rewrite last_lookup in Hlast.
    by eapply list_elem_of_lookup_2. }
  pose proof (split_nonempty "."%char fileWithExt) as Hstems.
  pose proof (split_pieces_free "."%char fileWithExt) as Hdots.
  pose proof (split_keeps_free "/"%char "."%char fileWithExt Hfile) as Hslashes.
  destruct (split "."%char fileWithExt) as [|stem rest] eqn:Hsplit; [done|].
  cbn [head mbind option_bind].
  apply Forall_cons in Hdots as [Hdot _]. apply Forall_cons in Hslashes as [Hslash _].
  destruct (Z.ltb_spec (indexOf "upload" (split "/"%char url) + 1)
              (Z.of_nat (length (split "/"%char url)) - 1)) as [Hlt|Hge].
  - eexists _, stem. split; [done|]. rewrite split_join.
    + rewrite last_snoc. split; [done|]. split; [done|].
      intros Hurl. rewrite (split_free _ _ Hurl) in Hlt. cbn in Hlt.
      destruct (decide (url = "upload")); cbn in Hlt; lia.
    + by destruct (slice _ _ _).
    + apply Forall_app. split; [by apply Forall_slice|by apply Forall_singleton].
  - exists stem, stem. split; [done|]. rewrite split_free by done.
    split; [done|]. split; [done|]. intros Hurl. split; [done|].
    rewrite (split_free _ _ Hurl) in Hlast. injection Hlast as ->. by rewrite Hsplit.
Qed.

(** ** Upload filters *)

Lemma includes_suffix (sub : string) (c : Ascii.ascii) (s : string) :
  includes sub s = true → includes sub (String c s) = true.
Proof. intros Hs. cbn [includes]. rewrite Hs. by rewrite orb_true_r. Qed.

Lemma prefix_trans (p q s : string) :
  String.prefix p q = true → String.prefix q s = true → String.prefix p s = true.
Proof.
  revert q s. induction p as [|c p IH]; intros q s; [by destruct s|].
  destruct q as [|c' q]; [done|]. destruct s as [|c'' s]; [done|].
  cbn [String.prefix]. destruct (Ascii.ascii_dec c c') as [->|]; [|done].
  destruct (Ascii.ascii_dec c' c''); [|done]. apply IH.
Qed.

Lemma includes_prefix (p q s : string) :
  String.prefix p q = true → includes q s = true → includes p s = true.
Proof.
  intros Hpq. induction s as [|c s IH]; cbn [includes]; unfold startsWith.
  - rewrite !orb_false_r. by apply prefix_trans.
  - intros [Hq|Hq]%orb_prop.
    + by rewrite (prefix_trans p q _ Hpq Hq).
    + rewrite (IH Hq). by rewrite orb_true_r.
Qed.

(** X23: what the voice filter accepts the file filter accepts.  For a
    lower-casing that leaves a leading ["audio/"] in place (as
    [toLowerCase] does, these characters being in lower case), every
    name and type accepted by [voiceFilter] is accepted by [fileFilter].
    And [fileFilter] looks for the extensions anywhere in the lower-cased
    name, whatever the type: a name in which ["doc"] occurs is accepted,
    so that the alternative ["docx"] adds nothing. *)
Theorem voice_files_pass_the_file_filter
    (toLowerCase : string → string) (originalname mimetype : string) :
  (∀ s, startsWith "audio/" s = true → startsWith "audio/" (toLowerCase s) = true) →
  (voiceFilter toLowerCase originalname mimetype = true →
   fileFilter toLowerCase originalname mimetype = true)
  ∧ (includes "doc" (toLowerCase originalname) = true →
     fileFilter toLowerCase originalname mimetype = true)
  ∧ test allowedDocs (toLowerCase originalname)
    = test ["pdf"; "doc"; "txt"] (toLowerCase originalname).
Proof.
  intros Hlower. unfold voiceFilter, fileFilter. split; [|split].
  - intros [Hmime|Hext]%orb_prop.
    + rewrite (Hlower _ Hmime). by rewrite !orb_true_r.
    + rewrite Hext. by rewrite !orb_true_r.
  - intros Hdoc. unfold test at 2. unfold allowedDocs. cbn [existsb].
    rewrite Hdoc. by rewrite !orb_true_r.
  - unfold test, allowedDocs. cbn [existsb].
    destruct (includes "docx" (toLowerCase originalname)) eqn:Hdocx.
    + rewrite (includes_prefix "doc" "docx" _ eq_refl Hdocx). by rewrite !orb_true_r.
    + done.
Qed.

Lemma lowerCase_audio (s : string) :
  startsWith "audio/" s = true → startsWith "audio/" (lowerCase s) = true.
Proof.
  unfold startsWith.
  do 6 (destruct s as [|? s]; cbn [String.prefix lowerCase];
        [try done; by repeat destruct (Ascii.ascii_dec _ _)|];
        destruct (Ascii.ascii_dec _ _) as [<-|]; [|done]).
  intros _. vm_compute. by destruct s.
Qed.

Lemma voice_files_pass_the_file_filter_witness :
  fileFilter lowerCase "Memo.WEBM" "application/octet-stream" = true.
Proof.
  apply (proj1 (voice_files_pass_the_file_filter
                  lowerCase "Memo.WEBM" "application/octet-stream" lowerCase_audio)).
  reflexivity.
Defined.
